(** * prac4: a movies CRUD service over one SQL table

    Shallow embedding of [cmd/api/main.go].  The handlers are embedded as
    functions from a request, the state of the [movies] table and the
    behaviour of the SQL driver during the request to the state of the
    [http.ResponseWriter], the new table and the trace of effects.  The
    pieces of the Go standard library that the handlers call
    ([strings.TrimSpace], [strings.TrimPrefix], [strconv.ParseInt],
    [encoding/json]) are embedded next to them, on byte strings. *)

From Stdlib Require Import ZArith String Ascii List Bool Lia.
From stdpp Require Import gmap strings list fin_maps sorting.
Import ListNotations.

Set Warnings "-register-all".

Local Open Scope string_scope.
Local Open Scope Z_scope.

(** ** Bytes *)

(** A Go [string] is a sequence of bytes: [String.string] here, one [ascii]
    per byte. *)
Definition byte_val (c : ascii) : Z := Z.of_N (N_of_ascii c).

Definition byte_of (z : Z) : ascii := ascii_of_N (Z.to_N z).

(** ** Package [strings] *)

Module GoStrings.

(** [asciiSpace]: '\t', '\n', '\v', '\f', '\r', ' '. *)
Definition asciiSpace (c : ascii) : bool :=
  let b := byte_val c in
  ((9 <=? b) && (b <=? 13)) || (b =? 32).

(** [unicode.IsSpace] on the two-byte UTF-8 sequences: U+0085 (NEL) and
    U+00A0 (NBSP). *)
Definition isSpace2 (c1 c2 : ascii) : bool :=
  (byte_val c1 =? 194) && ((byte_val c2 =? 133) || (byte_val c2 =? 160)).

(** [unicode.IsSpace] on the three-byte UTF-8 sequences: U+1680,
    U+2000..U+200A, U+2028, U+2029, U+202F, U+205F, U+3000. *)
Definition isSpace3 (c1 c2 c3 : ascii) : bool :=
  let b1 := byte_val c1 in
  let b2 := byte_val c2 in
  let b3 := byte_val c3 in
  ((b1 =? 225) && (b2 =? 154) && (b3 =? 128))
  || ((b1 =? 226) && (b2 =? 128)
      && (((128 <=? b3) && (b3 <=? 138)) || (b3 =? 168) || (b3 =? 169) || (b3 =? 175)))
  || ((b1 =? 226) && (b2 =? 129) && (b3 =? 159))
  || ((b1 =? 227) && (b2 =? 128) && (b3 =? 128)).

(** [TrimLeftFunc(s, unicode.IsSpace)]: drops the white-space runes at the
    front.  A byte that starts no white-space rune stops the scan (an
    invalid sequence decodes to U+FFFD, which is no white space). *)
Fixpoint TrimLeft (s : string) : string :=
  match s with
  | EmptyString => EmptyString
  | String c1 r1 =>
      if asciiSpace c1 then TrimLeft r1
      else match r1 with
           | String c2 r2 =>
               if isSpace2 c1 c2 then TrimLeft r2
               else match r2 with
                    | String c3 r3 => if isSpace3 c1 c2 c3 then TrimLeft r3 else s
                    | EmptyString => s
                    end
           | EmptyString => s
           end
  end.

(** The same scan on the reversed string: [utf8.DecodeLastRuneInString]
    finds a white-space rune at the end exactly when the string ends with
    its encoding. *)
Fixpoint TrimLeftRev (s : string) : string :=
  match s with
  | EmptyString => EmptyString
  | String c1 r1 =>
      if asciiSpace c1 then TrimLeftRev r1
      else match r1 with
           | String c2 r2 =>
               if isSpace2 c2 c1 then TrimLeftRev r2
               else match r2 with
                    | String c3 r3 => if isSpace3 c3 c2 c1 then TrimLeftRev r3 else s
                    | EmptyString => s
                    end
           | EmptyString => s
           end
  end.

Definition TrimRight (s : string) : string :=
  String.rev (TrimLeftRev (String.rev s)).

(** [strings.TrimSpace]: all leading and trailing white space removed. *)
Definition TrimSpace (s : string) : string := TrimRight (TrimLeft s).

(** [strings.HasPrefix]. *)
Fixpoint HasPrefix (s prefix : string) {struct prefix} : bool :=
  match prefix, s with
  | EmptyString, _ => true
  | String p prefix', String c s' => Ascii.eqb p c && HasPrefix s' prefix'
  | String _ _, EmptyString => false
  end.

Fixpoint drop (n : nat) (s : string) : string :=
  match n, s with
  | O, _ => s
  | S n', String _ s' => drop n' s'
  | S _, EmptyString => EmptyString
  end.

(** [strings.TrimPrefix]: [s] without the leading [prefix]; [s] itself
    when it does not start with [prefix]. *)
Definition TrimPrefix (s prefix : string) : string :=
  if HasPrefix s prefix then drop (String.length prefix) s else s.

End GoStrings.

(** ** Package [strconv] *)

Module GoStrconv.

Inductive NumError := ErrSyntax | ErrRange.

Definition base : Z := 10.
Definition bitSize : Z := 64.
Definition maxUint64 : Z := 2 ^ 64 - 1.

(** [lower(c)] is [c | ('x' - 'X')]. *)
Definition lower (c : Z) : Z := Z.lor c 32.

(** The loop of [ParseUint] over the bytes of [s], for base 10 and 64
    bits: [n] is the value read so far, a [uint64]. *)
Fixpoint ParseUint_loop (s : string) (n : Z) : Z * option NumError :=
  match s with
  | EmptyString => (n, None)
  | String ch s' =>
      let c := byte_val ch in
      let cutoff := maxUint64 / 10 + 1 in
      let maxVal := 2 ^ bitSize - 1 in
      let digit :=
        if (48 <=? c) && (c <=? 57) then Some (c - 48)
        else if (97 <=? lower c) && (lower c <=? 122) then Some (lower c - 97 + 10)
        else None in
      match digit with
      | None => (0, Some ErrSyntax)
      | Some d =>
          if base <=? d then (0, Some ErrSyntax)
          else if cutoff <=? n then (maxVal, Some ErrRange)
          else
            let n' := (n * base) mod 2 ^ 64 in
            let n1 := (n' + d) mod 2 ^ 64 in
            if (n1 <? n') || (maxVal <? n1) then (maxVal, Some ErrRange)
            else ParseUint_loop s' n1
      end
  end.

(** [strconv.ParseUint(s, 10, 64)]. *)
Definition ParseUint (s : string) : Z * option NumError :=
  match s with
  | EmptyString => (0, Some ErrSyntax)
  | _ => ParseUint_loop s 0
  end.

(** [int64(u)] for a [uint64]. *)
Definition int64_of_uint64 (u : Z) : Z :=
  if u <? 2 ^ 63 then u else u - 2 ^ 64.

(** [-n] on [int64]. *)
Definition int64_neg (n : Z) : Z :=
  if n =? - 2 ^ 63 then n else - n.

(** [strconv.ParseInt(s, 10, 64)]. *)
Definition ParseInt (s : string) : Z * option NumError :=
  match s with
  | EmptyString => (0, Some ErrSyntax)
  | String c0 rest =>
      let neg := Ascii.eqb c0 "-" in
      let s1 := if Ascii.eqb c0 "+" then rest else if neg then rest else s in
      let '(un, err) := ParseUint s1 in
      match err with
      | Some ErrSyntax => (0, Some ErrSyntax)
      | _ =>
          let cutoff := 2 ^ (bitSize - 1) in
          if negb neg && (cutoff <=? un) then (cutoff - 1, Some ErrRange)
          else if neg && (cutoff <? un) then (- cutoff, Some ErrRange)
          else
            let n := int64_of_uint64 un in
            (if neg then int64_neg n else n, None)
      end
  end.

(** [strconv.FormatInt(n, 10)] for [0 <= n], as a client writes an
    identifier into a path. *)
Fixpoint itoa_aux (fuel : nat) (n : Z) (acc : string) : string :=
  let acc' := String (byte_of (48 + n mod 10)) acc in
  match fuel with
  | O => acc'
  | S fuel' => if n <? 10 then acc' else itoa_aux fuel' (n / 10) acc'
  end.

Definition itoa (n : Z) : string := itoa_aux (Z.to_nat (Z.log2 n)) n "".

(** [strconv.FormatInt(n, 10)]. *)
Definition FormatInt (n : Z) : string :=
  if n <? 0 then String "-" (itoa (- n)) else itoa n.

End GoStrconv.

(** ** Package [encoding/json] *)

Module GoJSON.

(** A JSON value.  A number keeps its literal; the text of a string is the
    decoded one. *)
Inductive json :=
| JNull
| JBool (b : bool)
| JNumber (literal : string)
| JString (s : string)
| JArray (elems : list json)
| JObject (members : list (string * json)).

Inductive DecodeError :=
| SyntaxError
| UnmarshalTypeError
| UnknownField (key : string).

(** ASCII upper case of a byte, as [foldName] folds a key. *)
Definition foldByte (c : ascii) : ascii :=
  let b := byte_val c in
  if (97 <=? b) && (b <=? 122) then byte_of (b - 32) else c.

Fixpoint foldName (s : string) : string :=
  match s with
  | EmptyString => EmptyString
  | String c s' => String (foldByte c) (foldName s')
  end.

(** The decoder looks a key up among the fields of the destination by
    its exact name, then by its folded name: the one field here is
    [title]. *)
Definition isTitleField (key : string) : bool :=
  String.eqb key "title" || String.eqb (foldName key) (foldName "title").

(** [d.saveError]: the first error is the one reported. *)
Definition saveError (saved : option DecodeError) (e : DecodeError) : option DecodeError :=
  match saved with
  | Some _ => saved
  | None => Some e
  end.

(** Decoding the members of an object into [struct { Title string }] with
    [DisallowUnknownFields]: [title] is the field so far, [saved] the
    saved error.  A string is stored, [null] leaves the field as it is,
    any other value is a type error; a later member overwrites an earlier
    one. *)
Fixpoint decodeMembers (members : list (string * json)) (title : string)
    (saved : option DecodeError) : string * option DecodeError :=
  match members with
  | [] => (title, saved)
  | (key, v) :: rest =>
      if isTitleField key then
        match v with
        | JString s => decodeMembers rest s saved
        | JNull => decodeMembers rest title saved
        | _ => decodeMembers rest title (saveError saved UnmarshalTypeError)
        end
      else decodeMembers rest title (saveError saved (UnknownField key))
  end.

(** [Unmarshal] of one value into [struct { Title string }], whose field
    starts empty. *)
Definition decodeValue (v : json) : string * option DecodeError :=
  match v with
  | JNull => ("", None)
  | JObject members => decodeMembers members "" None
  | _ => ("", Some UnmarshalTypeError)
  end.

End GoJSON.

(** ** Package [unicode/utf8], as the JSON encoder uses it *)

Module GoUTF8.

(** A continuation byte, 0x80..0xBF. *)
Definition cont (c : ascii) : bool :=
  (128 <=? byte_val c) && (byte_val c <=? 191).

(** [utf8.DecodeRuneInString] finds a rune of two bytes: a lead byte
    0xC2..0xDF and a continuation byte. *)
Definition rune2 (c1 c2 : ascii) : bool :=
  (194 <=? byte_val c1) && (byte_val c1 <=? 223) && cont c2.

(** A rune of three bytes: the lead bytes 0xE0..0xEF with the range that
    each accepts for the second byte, and a continuation byte. *)
Definition rune3 (c1 c2 c3 : ascii) : bool :=
  let b1 := byte_val c1 in
  let b2 := byte_val c2 in
  (((b1 =? 224) && (160 <=? b2) && (b2 <=? 191))
   || ((225 <=? b1) && (b1 <=? 236) && cont c2)
   || ((b1 =? 237) && (128 <=? b2) && (b2 <=? 159))
   || ((238 <=? b1) && (b1 <=? 239) && cont c2))
  && cont c3.

(** A rune of four bytes: the lead bytes 0xF0..0xF4 with the range that
    each accepts for the second byte, and two continuation bytes. *)
Definition rune4 (c1 c2 c3 c4 : ascii) : bool :=
  let b1 := byte_val c1 in
  let b2 := byte_val c2 in
  (((b1 =? 240) && (144 <=? b2) && (b2 <=? 191))
   || ((241 <=? b1) && (b1 <=? 243) && cont c2)
   || ((b1 =? 244) && (128 <=? b2) && (b2 <=? 143)))
  && cont c3 && cont c4.

(** The encoding of U+FFFD. *)
Definition replacement : string :=
  String (byte_of 239) (String (byte_of 191) (String (byte_of 189) EmptyString)).

(** The text that the encoder writes for a Go string: it copies every rune
    that [utf8.DecodeRuneInString] decodes, and writes U+FFFD for every
    byte at which it returns [RuneError] with size 1 (an invalid or a
    truncated sequence), going on at the next byte. *)
Fixpoint encodedText (s : string) : string :=
  match s with
  | EmptyString => EmptyString
  | String c1 r1 =>
      if byte_val c1 <? 128 then String c1 (encodedText r1)
      else
        match r1 with
        | String c2 r2 =>
            if rune2 c1 c2 then String c1 (String c2 (encodedText r2))
            else
              match r2 with
              | String c3 r3 =>
                  if rune3 c1 c2 c3 then String c1 (String c2 (String c3 (encodedText r3)))
                  else
                    match r3 with
                    | String c4 r4 =>
                        if rune4 c1 c2 c3 c4
                        then String c1 (String c2 (String c3 (String c4 (encodedText r4))))
                        else String.append replacement (encodedText r1)
                    | EmptyString => String.append replacement (encodedText r1)
                    end
              | EmptyString => String.append replacement (encodedText r1)
              end
        | EmptyString => String.append replacement (encodedText r1)
        end
  end.

End GoUTF8.

Import GoStrings GoStrconv GoJSON GoUTF8.

(** ** The data model *)

(** [type Movie struct]. *)
Record Movie := { ID : Z; Title : string }.

(** A Go slice of movies: [None] is the [nil] slice, which differs from the
    empty slice in what the encoder writes. *)
Abbreviation MovieSlice := (option (list Movie)).

(** [append(s, m)]. *)
Definition append (s : MovieSlice) (m : Movie) : MovieSlice :=
  match s with
  | None => Some [m]
  | Some l => Some (l ++ [m])%list
  end.

(** The values that the handlers give to [writeJSON] as [v any]. *)
Inductive GoValue :=
| VMap (entries : list (string * string))   (* map[string]string *)
| VMovie (m : Movie)
| VMovies (s : MovieSlice).                 (* []Movie *)

(** A [Movie] as the encoder writes it: the fields in their order, the
    identifier in decimal, the title as text. *)
Definition encodeMovie (m : Movie) : json :=
  JObject [("id", JNumber (FormatInt (ID m))); ("title", JString (encodedText (Title m)))].

(** [json.Marshal]: a [nil] slice is written as [null], any other slice as
    an array; the keys and values of a map are written as text. *)
Definition Encode (v : GoValue) : json :=
  match v with
  | VMap entries =>
      JObject (map (fun kv => (encodedText (fst kv), JString (encodedText (snd kv)))) entries)
  | VMovie m => encodeMovie m
  | VMovies None => JNull
  | VMovies (Some l) => JArray (map encodeMovie l)
  end.

(** ** [net/http] *)

Definition MethodGet := "GET".
Definition MethodPost := "POST".
Definition MethodPut := "PUT".
Definition MethodDelete := "DELETE".

Definition StatusOK : Z := 200.
Definition StatusCreated : Z := 201.
Definition StatusNoContent : Z := 204.
Definition StatusBadRequest : Z := 400.
Definition StatusNotFound : Z := 404.
Definition StatusMethodNotAllowed : Z := 405.
Definition StatusInternalServerError : Z := 500.

(** A request, as far as the handlers read it.  [Body] is the first JSON
    value on the body stream, which is all that [Decode] reads; it is [None]
    when the stream does not start with a JSON value (a syntax error, an
    empty body). *)
Record Request := {
  Method : string;
  URL_Path : string;
  Body : option json
}.

(** The state of an [http.ResponseWriter]: the header map, the status code
    once written, and the JSON values written to the body, in order. *)
Record ResponseWriter := {
  Header : gmap string string;
  Code : option Z;
  Written : list json
}.

Definition newResponseWriter : ResponseWriter :=
  {| Header := ∅; Code := None; Written := [] |}.

(** [w.Header().Set(key, value)]. *)
Definition Header_Set (w : ResponseWriter) (key value : string) : ResponseWriter :=
  {| Header := <[key := value]> (Header w); Code := Code w; Written := Written w |}.

(** [w.WriteHeader(code)]: the first call fixes the status code. *)
Definition WriteHeader (w : ResponseWriter) (code : Z) : ResponseWriter :=
  match Code w with
  | Some _ => w
  | None => {| Header := Header w; Code := Some code; Written := Written w |}
  end.

(** [json.NewEncoder(w).Encode(v)]. *)
Definition Encoder_Encode (w : ResponseWriter) (v : GoValue) : ResponseWriter :=
  {| Header := Header w; Code := Code w; Written := (Written w ++ [Encode v])%list |}.

(** [func writeJSON(w http.ResponseWriter, code int, v any)]. *)
Definition writeJSON (w : ResponseWriter) (code : Z) (v : GoValue) : ResponseWriter :=
  let w := Header_Set w "Content-Type" "application/json" in
  let w := WriteHeader w code in
  Encoder_Encode w v.

(** [func readJSON(r *http.Request, dst any) error], for the destination
    [struct { Title string }]: the field and the error. *)
Definition readJSON (r : Request) : string * option DecodeError :=
  match Body r with
  | None => ("", Some SyntaxError)
  | Some v => decodeValue v
  end.

(** ** The store: PostgreSQL behind [database/sql] *)

(** The table [movies(id SERIAL PRIMARY KEY, title TEXT NOT NULL)]: the rows
    by their key, and the next value of the sequence behind [id]. *)
Record DB := {
  movies : gmap Z string;
  movies_id_seq : Z
}.

(** A sequence created by [SERIAL] starts at 1 and only grows. *)
Definition db_ok (db : DB) : Prop := 1 <= movies_id_seq db.

Inductive error :=
| ErrNoRows                      (* sql.ErrNoRows *)
| DriverError (msg : string).    (* any other error of the driver or the server *)

(** [err.Error()]. *)
Definition Error (e : error) : string :=
  match e with
  | ErrNoRows => "sql: no rows in result set"
  | DriverError msg => msg
  end.

(** What the connection does during one request: [stmt_err] is the error
    with which the statement of the request fails without effect (an
    unreachable server, an invalid text), [scan_err i] the error of
    [rows.Scan] on row number [i], and [next_stop] the number of rows after
    which [rows.Next] reports the end because the iteration failed. *)
Record Driver := {
  stmt_err : option string;
  scan_err : nat -> option string;
  next_stop : option nat
}.

Definition healthy : Driver :=
  {| stmt_err := None; scan_err := fun _ => None; next_stop := None |}.

(** The statements that the handlers send. *)
Inductive Stmt :=
| SelectAll
| InsertMovie (title : string)
| SelectMovie (id : Z)
| UpdateMovie (title : string) (id : Z)
| DeleteMovie (id : Z).

Module Postgres.

Definition int4_max : Z := 2147483647.

#[local] Instance movie_le_dec : RelDecision (fun m1 m2 : Movie => ID m1 <= ID m2).
Proof. intros m1 m2. apply Z_le_dec. Defined.

(** [SELECT id, title FROM movies ORDER BY id]. *)
Definition select_all (db : DB) : list Movie :=
  merge_sort (fun m1 m2 : Movie => ID m1 <= ID m2)
    (map (fun kv => {| ID := fst kv; Title := snd kv |}) (map_to_list (movies db))).

(** [INSERT INTO movies (title) VALUES ($1) RETURNING id]: the key is the
    next value of the sequence, which stays consumed when the insertion
    then fails on the primary key. *)
Definition insert (title : string) (db : DB) : DB * (Z + error) :=
  let id := movies_id_seq db in
  if int4_max <? id then
    (db, inr (DriverError "pq: nextval: reached maximum value of sequence"))
  else
    match movies db !! id with
    | Some _ =>
        ({| movies := movies db; movies_id_seq := id + 1 |},
         inr (DriverError "pq: duplicate key value violates unique constraint"))
    | None =>
        ({| movies := <[id := title]> (movies db); movies_id_seq := id + 1 |}, inl id)
    end.

(** [SELECT id, title FROM movies WHERE id=$1], read by [QueryRow.Scan]. *)
Definition select_by_id (id : Z) (db : DB) : Movie + error :=
  match movies db !! id with
  | Some title => inl {| ID := id; Title := title |}
  | None => inr ErrNoRows
  end.

(** [UPDATE movies SET title=$1 WHERE id=$2]: the new table and the
    number of rows affected. *)
Definition update (title : string) (id : Z) (db : DB) : DB * Z :=
  match movies db !! id with
  | Some _ => ({| movies := <[id := title]> (movies db); movies_id_seq := movies_id_seq db |}, 1)
  | None => (db, 0)
  end.

(** [DELETE FROM movies WHERE id=$1]. *)
Definition delete (id : Z) (db : DB) : DB * Z :=
  match movies db !! id with
  | Some _ => ({| movies := base.delete id (movies db); movies_id_seq := movies_id_seq db |}, 1)
  | None => (db, 0)
  end.

End Postgres.

(** ** Effects of a handler *)

Inductive Event :=
| ReadBody                 (* the request body was read *)
| Sql (stmt : Stmt).       (* a statement was sent to the database *)

(** The outcome of serving one request. *)
Record Result := {
  resp : ResponseWriter;
  db_after : DB;
  trace : list Event
}.

Definition errorBody (msg : string) : GoValue := VMap [("error", msg)].

(** [err != nil]. *)
Definition notNil {A : Type} (err : option A) : bool :=
  match err with
  | Some _ => true
  | None => false
  end.

Definition finish (w : ResponseWriter) (db : DB) (tr : list Event) : Result :=
  {| resp := w; db_after := db; trace := tr |}.

(** ** The calls into [database/sql] *)

(** The rows that [rows.Next] delivers. *)
Definition delivered (drv : Driver) (rows : list Movie) : list Movie :=
  match next_stop drv with
  | Some k => take k rows
  | None => rows
  end.

(** The loop [for rows.Next() { rows.Scan(...); out = append(out, m) }]:
    the slice, or the error of the first scan that fails. *)
Fixpoint scan_rows (drv : Driver) (rows : list Movie) (i : nat) (out : MovieSlice)
    : MovieSlice + string :=
  match rows with
  | [] => inl out
  | m :: rest =>
      match scan_err drv i with
      | Some e => inr e
      | None => scan_rows drv rest (S i) (append out m)
      end
  end.

(** [db.QueryRow(INSERT ...).Scan(&id)]. *)
Definition QueryRow_insert (drv : Driver) (title : string) (db : DB) : DB * (Z + error) :=
  match stmt_err drv with
  | Some e => (db, inr (DriverError e))
  | None => Postgres.insert title db
  end.

(** [db.QueryRow(SELECT ... WHERE id=$1).Scan(&m.ID, &m.Title)]. *)
Definition QueryRow_select (drv : Driver) (id : Z) (db : DB) : Movie + error :=
  match stmt_err drv with
  | Some e => inr (DriverError e)
  | None => Postgres.select_by_id id db
  end.

(** [db.Exec(UPDATE ...)] and [res.RowsAffected()]. *)
Definition Exec_update (drv : Driver) (title : string) (id : Z) (db : DB) : DB * (Z + error) :=
  match stmt_err drv with
  | Some e => (db, inr (DriverError e))
  | None => let '(db', aff) := Postgres.update title id db in (db', inl aff)
  end.

(** [db.Exec(DELETE ...)] and [res.RowsAffected()]. *)
Definition Exec_delete (drv : Driver) (id : Z) (db : DB) : DB * (Z + error) :=
  match stmt_err drv with
  | Some e => (db, inr (DriverError e))
  | None => let '(db', aff) := Postgres.delete id db in (db', inl aff)
  end.

(** ** The handlers registered in [main] *)

(** [mux.HandleFunc("/health", ...)]. *)
Definition health_handler (r : Request) (db : DB) (drv : Driver) : Result :=
  finish (writeJSON newResponseWriter StatusOK (VMap [("status", "ok")])) db [].

(** [mux.HandleFunc("/movies", ...)]. *)
Definition movies_handler (r : Request) (db : DB) (drv : Driver) : Result :=
  let w := newResponseWriter in
  if String.eqb (Method r) MethodGet then
    let tr := [Sql SelectAll] in
    match stmt_err drv with
    | Some e => finish (writeJSON w StatusInternalServerError (errorBody e)) db tr
    | None =>
        match scan_rows drv (delivered drv (Postgres.select_all db)) 0 None with
        | inr e => finish (writeJSON w StatusInternalServerError (errorBody e)) db tr
        | inl out => finish (writeJSON w StatusOK (VMovies out)) db tr
        end
    end
  else if String.eqb (Method r) MethodPost then
    let '(title, err) := readJSON r in
    match err with
    | Some _ => finish (writeJSON w StatusBadRequest (errorBody "invalid json")) db [ReadBody]
    | None =>
        let title := TrimSpace title in
        if String.eqb title "" then
          finish (writeJSON w StatusBadRequest (errorBody "title is required")) db [ReadBody]
        else
          let tr := [ReadBody; Sql (InsertMovie title)] in
          match QueryRow_insert drv title db with
          | (db', inr e) =>
              finish (writeJSON w StatusInternalServerError (errorBody (Error e))) db' tr
          | (db', inl id) =>
              finish (writeJSON w StatusCreated (VMovie {| ID := id; Title := title |})) db' tr
          end
    end
  else finish (WriteHeader w StatusMethodNotAllowed) db [].

(** [mux.HandleFunc("/movies/", ...)]. *)
Definition movie_handler (r : Request) (db : DB) (drv : Driver) : Result :=
  let w := newResponseWriter in
  let idStr := TrimPrefix (URL_Path r) "/movies/" in
  let '(id, err) := ParseInt idStr in
  if notNil err || (id <=? 0) then
    finish (writeJSON w StatusBadRequest (errorBody "invalid id")) db []
  else if String.eqb (Method r) MethodGet then
    let tr := [Sql (SelectMovie id)] in
    match QueryRow_select drv id db with
    | inr ErrNoRows => finish (writeJSON w StatusNotFound (errorBody "not found")) db tr
    | inr e => finish (writeJSON w StatusInternalServerError (errorBody (Error e))) db tr
    | inl m => finish (writeJSON w StatusOK (VMovie m)) db tr
    end
  else if String.eqb (Method r) MethodPut then
    let '(title, err) := readJSON r in
    match err with
    | Some _ => finish (writeJSON w StatusBadRequest (errorBody "invalid json")) db [ReadBody]
    | None =>
        let title := TrimSpace title in
        if String.eqb title "" then
          finish (writeJSON w StatusBadRequest (errorBody "title is required")) db [ReadBody]
        else
          let tr := [ReadBody; Sql (UpdateMovie title id)] in
          match Exec_update drv title id db with
          | (db', inr e) =>
              finish (writeJSON w StatusInternalServerError (errorBody (Error e))) db' tr
          | (db', inl aff) =>
              if aff =? 0 then finish (writeJSON w StatusNotFound (errorBody "not found")) db' tr
              else finish (writeJSON w StatusOK (VMovie {| ID := id; Title := title |})) db' tr
          end
    end
  else if String.eqb (Method r) MethodDelete then
    let tr := [Sql (DeleteMovie id)] in
    match Exec_delete drv id db with
    | (db', inr e) =>
        finish (writeJSON w StatusInternalServerError (errorBody (Error e))) db' tr
    | (db', inl aff) =>
        if aff =? 0 then finish (writeJSON w StatusNotFound (errorBody "not found")) db' tr
        else finish (WriteHeader w StatusNoContent) db' tr
    end
  else finish (WriteHeader w StatusMethodNotAllowed) db [].

(** ** The router *)

Inductive Pattern := PHealth | PMovies | PMovie.

(** [strings.Split(s, "/")]. *)
Fixpoint segments (s : string) : list string :=
  match s with
  | EmptyString => [EmptyString]
  | String c s' =>
      if Ascii.eqb c "/" then EmptyString :: segments s'
      else
        match segments s' with
        | seg :: rest => String c seg :: rest
        | [] => [String c EmptyString]
        end
  end.

(** Whether [cleanPath(path) == path]: the path starts with [/], has no
    segment [.] or [..], and no empty segment but a last one (a trailing
    slash).  The mux answers every other path itself, with a redirect to
    the cleaned path. *)
Definition isCleanPath (path : string) : bool :=
  match path with
  | String c rest =>
      Ascii.eqb c "/"
      && forallb (fun seg => negb (String.eqb seg ".") && negb (String.eqb seg ".."))
           (segments rest)
      && forallb (fun seg => negb (String.eqb seg "")) (removelast (segments rest))
  | EmptyString => false
  end.

(** The three patterns of the [http.ServeMux]: [/health] and [/movies]
    match one path each, [/movies/] every path under it. *)
Definition mux_pattern (path : string) : option Pattern :=
  if String.eqb path "/health" then Some PHealth
  else if String.eqb path "/movies" then Some PMovies
  else if HasPrefix path "/movies/" then Some PMovie
  else None.

(** The pattern whose handler the mux calls for a path: none for a path
    that is not clean. *)
Definition mux_match (path : string) : option Pattern :=
  if isCleanPath path then mux_pattern path else None.

Definition handler_of (p : Pattern) : Request -> DB -> Driver -> Result :=
  match p with
  | PHealth => health_handler
  | PMovies => movies_handler
  | PMovie => movie_handler
  end.

(** Serving a request whose path matches a pattern; [None] when the mux
    itself answers: no pattern matches, or the path is not clean.  The path
    of a CONNECT request is matched as it is. *)
Definition serve (r : Request) (db : DB) (drv : Driver) : option Result :=
  let pattern :=
    if String.eqb (Method r) "CONNECT" then mux_pattern (URL_Path r)
    else mux_match (URL_Path r) in
  match pattern with
  | Some p => Some (handler_of p r db drv)
  | None => None
  end.

(** ** [func waitForDB(db *sql.DB)] *)

(** The state of the loop: the number of probes issued, the seconds slept,
    the lines logged, and whether the function has returned. *)
Record WaitState := {
  probes : nat;
  slept : nat;
  logged : list string;
  returned : bool
}.

(** The line logged on a failed probe. *)
Definition waiting_line : string := "Waiting for database...".

Definition wait_init : WaitState :=
  {| probes := 0; slept := 0; logged := []; returned := false |}.

(** One turn of the [for] loop: [ping i] tells whether probe number [i]
    succeeds ([db.Ping() == nil]).  A failed probe is followed by the log
    line and [time.Sleep(1 * time.Second)]. *)
Definition wait_step (ping : nat -> bool) (s : WaitState) : WaitState :=
  if returned s then s
  else if ping (probes s) then
    {| probes := S (probes s); slept := slept s; logged := logged s; returned := true |}
  else
    {| probes := S (probes s); slept := S (slept s);
       logged := (logged s ++ [waiting_line])%list; returned := false |}.

(** The state after at most [n] turns. *)
Fixpoint waitForDB (ping : nat -> bool) (n : nat) : WaitState :=
  match n with
  | O => wait_init
  | S n' => wait_step ping (waitForDB ping n')
  end.

(** ** Requests and outcomes that the properties speak of *)

(** The identifier of a request to [/movies/{id}]: the rest of the path
    after [/movies/], when [ParseInt] reads it without error as a positive
    number. *)
Definition path_id (r : Request) : option Z :=
  let '(id, err) := ParseInt (TrimPrefix (URL_Path r) "/movies/") in
  match err with
  | Some _ => None
  | None => if 0 <? id then Some id else None
  end.

(** The response to a rejected identifier. *)
Definition invalid_id_result (db : DB) : Result :=
  finish (writeJSON newResponseWriter StatusBadRequest (errorBody "invalid id")) db [].

(** The bare [w.WriteHeader(code)] of the 405 and 204 responses. *)
Definition bare (code : Z) : ResponseWriter := WriteHeader newResponseWriter code.

(** [POST /movies] with the body [{"title": t}]. *)
Definition post_movie (t : string) : Request :=
  {| Method := MethodPost; URL_Path := "/movies";
     Body := Some (JObject [("title", JString t)]) |}.

(** [GET /movies/{id}], the identifier written in decimal. *)
Definition get_movie (id : Z) : Request :=
  {| Method := MethodGet; URL_Path := "/movies/" ++ FormatInt id; Body := None |}.

(** [PUT /movies/{seg}] with the body [{"title": t}]. *)
Definition put_movie (seg t : string) : Request :=
  {| Method := MethodPut; URL_Path := "/movies/" ++ seg;
     Body := Some (JObject [("title", JString t)]) |}.

(** The table as the schema creates it, before any row. *)
Definition db_empty : DB := {| movies := ∅; movies_id_seq := 1 |}.


(** [POST /movies] with the body [{"title":"Dune","extra":1}]. *)
Definition post_extra : Request :=
  {| Method := MethodPost; URL_Path := "/movies";
     Body := Some (JObject [("title", JString "Dune"); ("extra", JNumber "1")]) |}.

(** The state in which [n] probes have failed and the loop goes on. *)
Definition waiting (n : nat) : WaitState :=
  {| probes := n; slept := n; logged := repeat waiting_line n; returned := false |}.

(** The state in which the function has returned on probe number [i]. *)
Definition ready (i : nat) : WaitState :=
  {| probes := S i; slept := i; logged := repeat waiting_line i; returned := true |}.

(** ** The sentences that fail as they stand *)

(** [POST /movies] with the body [{"TITLE":"Dune"}]. *)
Definition post_upper : Request :=
  {| Method := MethodPost; URL_Path := "/movies";
     Body := Some (JObject [("TITLE", JString "Dune")]) |}.


(** The sentence of C4 as it stands: on [/movies/{id}], for GET, PUT and
    DELETE, the answer is 400 exactly when the identifier is rejected. *)
Definition C4_as_stated : Prop :=
  forall (r : Request) (db : DB) (drv : Driver),
    mux_match (URL_Path r) = Some PMovie ->
    In (Method r) [MethodGet; MethodPut; MethodDelete] ->
    (Code (resp (movie_handler r db drv)) = Some StatusBadRequest <-> path_id r = None).


(** The sentence of C7 as it stands: every response of a handler carries
    [Content-Type: application/json]. *)
Definition C7_as_stated : Prop :=
  forall (r : Request) (db : DB) (drv : Driver) (res : Result),
    serve r db drv = Some res ->
    Header (resp res) !! "Content-Type" = Some "application/json".

(** ** Decimal strings *)

Definition is_digit (c : ascii) : bool := (48 <=? byte_val c) && (byte_val c <=? 57).

Fixpoint all_digits (s : string) : bool :=
  match s with
  | EmptyString => true
  | String c s' => is_digit c && all_digits s'
  end.

(** The number that the digits of [s] denote after the digits of [a]. *)
Fixpoint dec_from (a : Z) (s : string) : Z :=
  match s with
  | EmptyString => a
  | String c s' => dec_from (a * 10 + (byte_val c - 48)) s'
  end.

Definition dec_value (s : string) : Z := dec_from 0 s.

(** The segments that stand for the identifier [id]: decimal digits, with
    or without [+] in front, of the value [id], at least 1 and below
    2^63. *)
Definition accepted_segment (seg : string) (id : Z) : Prop :=
  exists digits,
    (seg = digits \/ seg = String "+" digits)
    /\ digits <> "" /\ all_digits digits = true
    /\ dec_value digits = id /\ 0 < id < 2 ^ 63.

(** ** Start-up: [mustEnv], [openDB], [main] *)

(** A computation that [log.Fatal] may end: [Fatal msg] is the process
    exiting with [msg] logged. *)
Inductive Exit (A : Type) :=
| Fatal (msg : string)
| Ok (v : A).
Arguments Fatal {A} msg.
Arguments Ok {A} v.

(** Sequencing: a fatal error ends the computation. *)
#[global] Instance Exit_bind : MBind Exit :=
  fun A B (k : A -> Exit B) (c : Exit A) =>
    match c with
    | Fatal msg => Fatal msg
    | Ok v => k v
    end.

(** [os.Getenv]: the value of the variable, empty when it is not set. *)
Definition Getenv (env : gmap string string) (key : string) : string :=
  default "" (env !! key).

(** [func mustEnv(key string) string]. *)
Definition mustEnv (env : gmap string string) (key : string) : Exit string :=
  let v := TrimSpace (Getenv env key) in
  if String.eqb v "" then Fatal ("missing env var: " ++ key) else Ok v.

(** The handle [*sql.DB] as [openDB] leaves it: the data source name and the
    limits of the pool, the lifetime in minutes. *)
Record SqlDB := {
  dsn : string;
  MaxOpenConns : Z;
  MaxIdleConns : Z;
  ConnMaxLifetime : Z
}.

(** [func openDB() *sql.DB]: the five parameters are read in the order of
    the arguments of [Sprintf]; [open_err] is the error of [sql.Open], if
    any. *)
Definition openDB (env : gmap string string) (open_err : option string) : Exit SqlDB :=
  host ← mustEnv env "DB_HOST";
  port ← mustEnv env "DB_PORT";
  user ← mustEnv env "DB_USER";
  password ← mustEnv env "DB_PASSWORD";
  dbname ← mustEnv env "DB_NAME";
  let dsn := "host=" ++ host ++ " port=" ++ port ++ " user=" ++ user
             ++ " password=" ++ password ++ " dbname=" ++ dbname ++ " sslmode=disable" in
  match open_err with
  | Some e => Fatal e
  | None =>
      Ok {| dsn := dsn; MaxOpenConns := 10; MaxIdleConns := 10; ConnMaxLifetime := 30 |}
  end.

(** [http.Server]: the address and the header timeout in seconds. *)
Record Server := {
  Addr : string;
  ReadHeaderTimeout : Z
}.

(** Where [main] stands after at most [turns] turns of the waiting loop. *)
Inductive MainState :=
| Exited (msg : string)
| WaitingForDB (w : WaitState)
| Listening (srv : Server) (db : SqlDB) (log : list string).

(** [func main()], up to the call of [srv.ListenAndServe]. *)
Definition main (env : gmap string string) (open_err : option string)
    (ping : nat -> bool) (turns : nat) : MainState :=
  let port := Getenv env "PORT" in
  let port := if String.eqb (TrimSpace port) "" then "8080" else port in
  match openDB env open_err with
  | Fatal msg => Exited msg
  | Ok db =>
      let w := waitForDB ping turns in
      if returned w then
        Listening {| Addr := ":" ++ port; ReadHeaderTimeout := 5 |} db
          (logged w ++ ["Database connected"; "Starting the Server..."])%list
      else WaitingForDB w
  end.

(** The variables that [openDB] reads, in its order. *)
Definition required_env : list string :=
  ["DB_HOST"; "DB_PORT"; "DB_USER"; "DB_PASSWORD"; "DB_NAME"].

(** A variable that is not set, or set to white space only. *)
Definition blank (env : gmap string string) (key : string) : bool :=
  String.eqb (TrimSpace (Getenv env key)) "".

(** ** Sequences of requests *)

(** The store after one request, served with the driver behaving as
    [snd rq]; a path that matches no pattern does not reach a handler. *)
Definition step (db : DB) (rq : Request * Driver) : DB :=
  match serve (fst rq) db (snd rq) with
  | Some res => db_after res
  | None => db
  end.

(** The store after the requests [rqs], served one after the other. *)
Definition run (rqs : list (Request * Driver)) (db : DB) : DB :=
  fold_left step rqs db.

(** Every key of the table was drawn from the sequence. *)
Definition keys_ok (db : DB) : Prop :=
  1 <= movies_id_seq db
  /\ forall id title, movies db !! id = Some title -> 1 <= id < movies_id_seq db.

(** Every title of the table is trimmed and not empty. *)
Definition titles_ok (db : DB) : Prop :=
  forall id title, movies db !! id = Some title -> title <> "" /\ TrimSpace title = title.

(** ** Shapes of strings, bodies and traces *)

(** Whether [s] starts with a white-space rune: the tests of [TrimLeft]. *)
Definition lead (s : string) : bool :=
  match s with
  | EmptyString => false
  | String c1 r1 =>
      asciiSpace c1
      || match r1 with
         | EmptyString => false
         | String c2 r2 =>
             isSpace2 c1 c2
             || match r2 with
                | EmptyString => false
                | String c3 _ => isSpace3 c1 c2 c3
                end
         end
  end.

(** Whether the reversed string [s] starts with a reversed white-space
    rune: the tests of [TrimLeftRev]. *)
Definition lead_rev (s : string) : bool :=
  match s with
  | EmptyString => false
  | String c1 r1 =>
      asciiSpace c1
      || match r1 with
         | EmptyString => false
         | String c2 r2 =>
             isSpace2 c2 c1
             || match r2 with
                | EmptyString => false
                | String c3 _ => isSpace3 c3 c2 c1
                end
         end
  end.

(** A member that the decoder stores or skips without error: the field
    [title] holding a string or [null]. *)
Definition member_ok (kv : string * json) : bool :=
  isTitleField (fst kv)
  && match snd kv with
     | JString _ | JNull => true
     | _ => false
     end.

(** The bodies that [readJSON] decodes without error. *)
Definition body_ok (body : option json) : bool :=
  match body with
  | Some JNull => true
  | Some (JObject members) => forallb member_ok members
  | _ => false
  end.

Definition is_sql (e : Event) : bool :=
  match e with
  | Sql _ => true
  | ReadBody => false
  end.


(** The JSON that a handler writes for an error. *)
Definition error_json (msg : string) : json := JObject [("error", JString msg)].

(** The status codes that the handler of a pattern writes for a method. *)
Definition codes_of (p : Pattern) (method : string) : list Z :=
  match p with
  | PHealth => [StatusOK]
  | PMovies =>
      if String.eqb method MethodGet then [StatusOK; StatusInternalServerError]
      else if String.eqb method MethodPost
      then [StatusCreated; StatusBadRequest; StatusInternalServerError]
      else [StatusMethodNotAllowed]
  | PMovie =>
      if String.eqb method MethodGet
      then [StatusOK; StatusBadRequest; StatusNotFound; StatusInternalServerError]
      else if String.eqb method MethodPut
      then [StatusOK; StatusBadRequest; StatusNotFound; StatusInternalServerError]
      else if String.eqb method MethodDelete
      then [StatusNoContent; StatusBadRequest; StatusNotFound; StatusInternalServerError]
      else [StatusBadRequest; StatusMethodNotAllowed]
  end.

(** A table with one row. *)
Definition db_dune : DB := {| movies := {[1 := "Dune"]}; movies_id_seq := 2 |}.

(** A driver whose statements fail with the message [e]. *)
Definition failing (e : string) : Driver :=
  {| stmt_err := Some e; scan_err := fun _ => None; next_stop := None |}.

(** A table with two rows. *)
Definition db_two : DB :=
  {| movies := <[3 := "Alien"]> {[12 := "Dune"]}; movies_id_seq := 13 |}.

(** Two movies created, the first deleted, the second renamed, and a
    request to a path that no pattern matches. *)
Definition session : list (Request * Driver) :=
  [ (post_movie " Dune ", healthy);
    (post_movie "Alien", healthy);
    ({| Method := MethodDelete; URL_Path := "/movies/1"; Body := None |}, healthy);
    (put_movie "2" "Alien 3 ", healthy);
    ({| Method := MethodGet; URL_Path := "/films"; Body := None |}, healthy) ].

(** ** Proof steps *)

(** Splits the goal along every test and call of a handler. *)
Ltac handler_cases :=
  repeat match goal with
    | |- context [String.eqb ?a ?b] => destruct (String.eqb_spec a b)
    | |- context [readJSON ?r] => destruct (readJSON r) as [? [?|]]
    | |- context [QueryRow_select ?d ?i ?b] => destruct (QueryRow_select d i b) as [?|[|?]]
    | |- context [QueryRow_insert ?d ?t ?b] => destruct (QueryRow_insert d t b) as [? [?|?]]
    | |- context [Exec_update ?d ?t ?i ?b] => destruct (Exec_update d t i b) as [? [?|?]]
    | |- context [Exec_delete ?d ?i ?b] => destruct (Exec_delete d i b) as [? [?|?]]
    | |- context [Z.eqb ?a 0] => destruct (Z.eqb_spec a 0)
    | |- context [scan_rows ?d ?l ?i ?o] => destruct (scan_rows d l i o)
    | |- context [stmt_err ?d] => destruct (stmt_err d)
    | |- context [movies ?d !! ?i] => destruct (movies d !! i)
    end.

(** Settles a goal about one written response with the fact for its kind:
    [J] for [writeJSON], [B] for a bare [WriteHeader]. *)
Ltac classify J B :=
  lazymatch goal with
  | |- context [WriteHeader newResponseWriter ?c] =>
      apply (B c); first [left; reflexivity | right; reflexivity]
  | |- context [writeJSON newResponseWriter ?c ?v] =>
      apply (J c v); cbn [In]; repeat first [left; reflexivity | right]
  end.

(** ** The library functions on sample inputs *)

Example TrimSpace_samples :
  TrimSpace "  Dune 2 " = "Dune 2"
  /\ TrimSpace "  " = ""
  /\ TrimSpace (String (byte_of 9) (String (byte_of 194) (String (byte_of 160) "x"))) = "x".
Proof. repeat split. Qed.

Example ParseInt_samples :
  ParseInt "+5" = (5, None)
  /\ ParseInt "-1" = (-1, None)
  /\ ParseInt "abc" = (0, Some ErrSyntax)
  /\ ParseInt "" = (0, Some ErrSyntax)
  /\ ParseInt "1_000" = (0, Some ErrSyntax)
  /\ ParseInt "9223372036854775807" = (2 ^ 63 - 1, None)
  /\ ParseInt "9223372036854775808" = (2 ^ 63 - 1, Some ErrRange)
  /\ ParseInt "-9223372036854775808" = (- 2 ^ 63, None)
  /\ ParseInt "99999999999999999999" = (2 ^ 63 - 1, Some ErrRange).
Proof. vm_compute. repeat split. Qed.

Example FormatInt_samples :
  FormatInt 0 = "0" /\ FormatInt 10 = "10" /\ FormatInt (-42) = "-42"
  /\ FormatInt (2 ^ 63 - 1) = "9223372036854775807".
Proof. vm_compute. repeat split. Qed.

Example decodeValue_samples :
  decodeValue (JObject [("Title", JString "a"); ("title", JString "b")]) = ("b", None)
  /\ decodeValue (JObject [("title", JNull)]) = ("", None)
  /\ snd (decodeValue (JObject [("title", JNumber "5")])) = Some UnmarshalTypeError
  /\ snd (decodeValue (JObject [("name", JString "a")])) = Some (UnknownField "name")
  /\ snd (decodeValue (JArray [])) = Some UnmarshalTypeError.
Proof. repeat split. Qed.

Section Strconv_facts.

Lemma byte_val_byte_of (z : Z) : 0 <= z < 256 -> byte_val (byte_of z) = z.
Proof.
  intros Hz. unfold byte_val, byte_of.
  rewrite N_ascii_embedding by lia. lia.
Qed.

Lemma dec_from_ge (s : string) :
  forall a, all_digits s = true -> 0 <= a -> a <= dec_from a s.
Proof.
  induction s as [|c s IH]; intros a Hd Ha; simpl in *; [lia|].
  apply andb_prop in Hd as [Hc Hs]. unfold is_digit in Hc.
  apply andb_prop in Hc as [H1 H2].
  apply Z.leb_le in H1, H2.
  specialize (IH (a * 10 + (byte_val c - 48)) Hs). lia.
Qed.

(** On a string of digits the loop of [ParseUint] computes the decimal
    value, and reports a range error exactly when that value does not
    fit 64 bits. *)
Lemma ParseUint_loop_digits (s : string) :
  forall n, all_digits s = true -> 0 <= n < 2 ^ 64 ->
    ParseUint_loop s n =
      if dec_from n s <? 2 ^ 64 then (dec_from n s, None)
      else (maxUint64, Some ErrRange).
Proof.
  induction s as [|c s IH]; intros n Hd Hn.
  - simpl. destruct (Z.ltb_spec n (2 ^ 64)); [reflexivity | lia].
  - cbn [all_digits] in Hd. apply andb_prop in Hd as [Hc Hs].
    cbn [ParseUint_loop dec_from]. cbv zeta.
    unfold is_digit in Hc. rewrite Hc. apply andb_prop in Hc as [H1 H2].
    apply Z.leb_le in H1, H2.
    set (d := byte_val c - 48) in *.
    assert (Hd10 : (base <=? d) = false) by (apply Z.leb_gt; unfold base; lia).
    rewrite Hd10.
    assert (Hge : n * 10 + d <= dec_from (n * 10 + d) s)
      by (apply dec_from_ge; [assumption | lia]).
    change (maxUint64 / 10 + 1) with 1844674407370955162.
    change (2 ^ bitSize - 1) with 18446744073709551615.
    change (2 ^ 64) with 18446744073709551616 in *.
    unfold base.
    destruct (Z.leb_spec 1844674407370955162 n) as [Hcut|Hcut].
    + destruct (Z.ltb_spec (dec_from (n * 10 + d) s) 18446744073709551616); [lia|].
      reflexivity.
    + rewrite (Z.mod_small (n * 10)) by lia.
      destruct (Z.lt_ge_cases (n * 10 + d) 18446744073709551616) as [Hfit|Hover].
      * rewrite (Z.mod_small (n * 10 + d)) by lia.
        destruct (Z.ltb_spec (n * 10 + d) (n * 10)); [lia|].
        destruct (Z.ltb_spec 18446744073709551615 (n * 10 + d)); [lia|].
        cbn [orb]. rewrite IH by (assumption || lia). reflexivity.
      * assert (Hm : (n * 10 + d) mod 18446744073709551616
                     = n * 10 + d - 18446744073709551616).
        { symmetry. apply Z.mod_unique with (q := 1); lia. }
        rewrite Hm.
        destruct (Z.ltb_spec (n * 10 + d - 18446744073709551616) (n * 10)); [|lia].
        cbn [orb].
        destruct (Z.ltb_spec (dec_from (n * 10 + d) s) 18446744073709551616); [lia|].
        reflexivity.
Qed.

Lemma ParseUint_digits (s : string) :
  all_digits s = true -> s <> "" ->
  ParseUint s =
    if dec_value s <? 2 ^ 64 then (dec_value s, None)
    else (maxUint64, Some ErrRange).
Proof.
  intros Hd Hne. unfold ParseUint, dec_value.
  destruct s as [|c s]; [congruence|].
  apply ParseUint_loop_digits; [assumption | lia].
Qed.

(** A digit is no sign. *)
Lemma digit_not_sign (c : ascii) :
  is_digit c = true -> Ascii.eqb c "+" = false /\ Ascii.eqb c "-" = false.
Proof.
  unfold is_digit. intros H. apply andb_prop in H as [H1 H2].
  apply Z.leb_le in H1, H2.
  split; apply Ascii.eqb_neq; intros ->; vm_compute in H1; congruence.
Qed.

Lemma dec_value_nonneg (s : string) : all_digits s = true -> 0 <= dec_value s.
Proof. intros H. apply (dec_from_ge s 0 H). lia. Qed.

(** [ParseInt] on an unsigned string of digits. *)
Lemma ParseInt_digits (s : string) :
  all_digits s = true -> s <> "" ->
  ParseInt s =
    if dec_value s <? 2 ^ 63 then (dec_value s, None)
    else (2 ^ 63 - 1, Some ErrRange).
Proof.
  intros Hd Hne.
  pose proof (ParseUint_digits s Hd Hne) as HU.
  pose proof (dec_value_nonneg s Hd) as Hpos.
  destruct s as [|c s]; [congruence|].
  assert (Hc : is_digit c = true) by (cbn in Hd; apply andb_prop in Hd; tauto).
  destruct (digit_not_sign c Hc) as [Hp Hm].
  unfold ParseInt. rewrite Hp, Hm, HU.
  change (2 ^ (bitSize - 1)) with (2 ^ 63).
  destruct (Z.ltb_spec (dec_value (String c s)) (2 ^ 64)) as [H64|H64].
  - destruct (Z.ltb_spec (dec_value (String c s)) (2 ^ 63)) as [H63|H63].
    + cbn [negb andb]. destruct (Z.leb_spec (2 ^ 63) (dec_value (String c s))); [lia|].
      unfold int64_of_uint64.
      destruct (Z.ltb_spec (dec_value (String c s)) (2 ^ 63)); [reflexivity | lia].
    + cbn [negb andb]. destruct (Z.leb_spec (2 ^ 63) (dec_value (String c s))); [|lia].
      reflexivity.
  - destruct (Z.ltb_spec (dec_value (String c s)) (2 ^ 63)) as [H63|H63]; [lia|].
    reflexivity.
Qed.

(** A leading [+] is picked off before the digits are read. *)
Lemma ParseInt_plus (s : string) :
  all_digits s = true -> s <> "" ->
  ParseInt (String "+" s) = ParseInt s.
Proof.
  intros Hd Hne. rewrite (ParseInt_digits s Hd Hne).
  pose proof (ParseUint_digits s Hd Hne) as HU.
  pose proof (dec_value_nonneg s Hd) as Hpos.
  unfold ParseInt. change (Ascii.eqb "+" "+") with true.
  change (Ascii.eqb "+" "-") with false. cbv iota. rewrite HU.
  change (2 ^ (bitSize - 1)) with (2 ^ 63).
  destruct (Z.ltb_spec (dec_value s) (2 ^ 64)) as [H64|H64].
  - destruct (Z.ltb_spec (dec_value s) (2 ^ 63)) as [H63|H63].
    + cbn [negb andb]. destruct (Z.leb_spec (2 ^ 63) (dec_value s)); [lia|].
      unfold int64_of_uint64.
      destruct (Z.ltb_spec (dec_value s) (2 ^ 63)); [reflexivity | lia].
    + cbn [negb andb]. destruct (Z.leb_spec (2 ^ 63) (dec_value s)); [|lia].
      reflexivity.
  - destruct (Z.ltb_spec (dec_value s) (2 ^ 63)) as [H63|H63]; [lia|].
    reflexivity.
Qed.

Lemma itoa_digit (n : Z) :
  0 <= n -> byte_val (byte_of (48 + n mod 10)) = 48 + n mod 10.
Proof.
  intros Hn. apply byte_val_byte_of.
  pose proof (Z.mod_pos_bound n 10). lia.
Qed.

Lemma itoa_aux_digits (fuel : nat) :
  forall n acc, 0 <= n -> all_digits acc = true ->
    all_digits (itoa_aux fuel n acc) = true.
Proof.
  assert (Hone : forall n acc, 0 <= n -> all_digits acc = true ->
            all_digits (String (byte_of (48 + n mod 10)) acc) = true).
  { intros n acc Hn Hacc. cbn [all_digits]. rewrite Hacc, andb_true_r.
    unfold is_digit. rewrite itoa_digit by assumption.
    pose proof (Z.mod_pos_bound n 10).
    apply andb_true_intro; split; apply Z.leb_le; lia. }
  induction fuel as [|fuel IH]; intros n acc Hn Hacc; cbn [itoa_aux]; [auto|].
  destruct (n <? 10); [auto|].
  apply IH; [apply Z.div_pos; lia | auto].
Qed.

Lemma itoa_aux_nonempty (fuel : nat) :
  forall n acc, itoa_aux fuel n acc <> "".
Proof.
  induction fuel as [|fuel IH]; intros n acc; cbn [itoa_aux]; [discriminate|].
  destruct (n <? 10); [discriminate | apply IH].
Qed.

(** The digits written by [itoa_aux] in front of [acc] denote [n]. *)
Lemma itoa_aux_value (fuel : nat) :
  forall n acc, 0 <= n < 2 ^ (Z.of_nat fuel + 1) ->
    exists p, forall a, dec_from a (itoa_aux fuel n acc) = dec_from (a * p + n) acc.
Proof.
  assert (Hone : forall n acc, 0 <= n < 10 ->
            forall a, dec_from a (String (byte_of (48 + n mod 10)) acc)
                      = dec_from (a * 10 + n) acc).
  { intros n acc Hn a. cbn [dec_from]. rewrite itoa_digit by lia.
    rewrite Z.mod_small by lia. f_equal. lia. }
  induction fuel as [|fuel IH]; intros n acc Hn; cbn [itoa_aux].
  - exists 10. apply Hone. change (2 ^ (Z.of_nat 0 + 1)) with 2 in Hn. lia.
  - destruct (Z.ltb_spec n 10) as [Hlt|Hge].
    + exists 10. apply Hone. lia.
    + assert (Hdiv : 0 <= n / 10 < 2 ^ (Z.of_nat fuel + 1)).
      { split; [apply Z.div_pos; lia|].
        apply Z.div_lt_upper_bound; [lia|].
        replace (Z.of_nat (S fuel) + 1) with (Z.of_nat fuel + 1 + 1) in Hn by lia.
        rewrite Z.pow_add_r in Hn by lia.
        change (2 ^ 1) with 2 in Hn.
        assert (0 < 2 ^ (Z.of_nat fuel + 1)) by (apply Z.pow_pos_nonneg; lia).
        lia. }
      destruct (IH (n / 10) (String (byte_of (48 + n mod 10)) acc) Hdiv) as [p Hp].
      exists (p * 10). intros a. rewrite Hp. cbn [dec_from].
      rewrite itoa_digit by lia. f_equal.
      pose proof (Z.div_mod n 10). lia.
Qed.

Lemma itoa_digits (n : Z) : 0 <= n -> all_digits (itoa n) = true.
Proof. intros Hn. apply itoa_aux_digits; auto. Qed.

Lemma itoa_nonempty (n : Z) : itoa n <> "".
Proof. apply itoa_aux_nonempty. Qed.

Lemma itoa_value (n : Z) : 0 <= n -> dec_value (itoa n) = n.
Proof.
  intros Hn. unfold dec_value, itoa.
  destruct (itoa_aux_value (Z.to_nat (Z.log2 n)) n "") as [p Hp].
  - rewrite Z2Nat.id by apply Z.log2_nonneg.
    destruct (Z.eq_dec n 0) as [->|Hnz]; [vm_compute; split; congruence|].
    pose proof (Z.log2_spec n). lia.
  - rewrite Hp. cbn [dec_from]. lia.
Qed.

(** Reading back an identifier written in decimal. *)
Lemma ParseInt_itoa (n : Z) : 0 <= n < 2 ^ 63 -> ParseInt (itoa n) = (n, None).
Proof.
  intros Hn.
  rewrite ParseInt_digits by (apply itoa_digits || apply itoa_nonempty; lia).
  rewrite itoa_value by lia.
  destruct (Z.ltb_spec n (2 ^ 63)); [reflexivity | lia].
Qed.

Lemma ParseInt_FormatInt (n : Z) : 0 <= n < 2 ^ 63 -> ParseInt (FormatInt n) = (n, None).
Proof.
  intros Hn. unfold FormatInt.
  destruct (Z.ltb_spec n 0); [lia | apply ParseInt_itoa; assumption].
Qed.

End Strconv_facts.

(** ** Trimming twice *)

Section Trimming.

Lemma string_app_cons (c : ascii) (a b : string) : String c a ++ b = String c (a ++ b).
Proof. reflexivity. Qed.

Lemma string_app_nil_l (b : string) : "" ++ b = b.
Proof. reflexivity. Qed.

Lemma string_app_nil_r (a : string) : a ++ "" = a.
Proof.
  induction a as [|c a IH]; [reflexivity|].
  rewrite string_app_cons, IH. reflexivity.
Qed.

Lemma string_app_assoc (a b c : string) : (a ++ b) ++ c = a ++ (b ++ c).
Proof.
  induction a as [|x a IH]; [reflexivity|].
  rewrite !string_app_cons, IH. reflexivity.
Qed.

Lemma rev_app_spec (s1 : string) :
  forall s2, String.rev_app s1 s2 = String.rev s1 ++ s2.
Proof.
  unfold String.rev. induction s1 as [|c s1 IH]; intros s2; cbn [String.rev_app].
  - reflexivity.
  - rewrite (IH (String c s2)), (IH (String c "")), string_app_assoc. reflexivity.
Qed.

Lemma rev_cons (c : ascii) (s : string) : String.rev (String c s) = String.rev s ++ String c "".
Proof. unfold String.rev at 1. cbn [String.rev_app]. apply rev_app_spec. Qed.

Lemma rev_append (a b : string) : String.rev (a ++ b) = String.rev b ++ String.rev a.
Proof.
  induction a as [|c a IH].
  - rewrite string_app_nil_l. change (String.rev "") with "".
    rewrite string_app_nil_r. reflexivity.
  - rewrite string_app_cons, !rev_cons, IH, string_app_assoc. reflexivity.
Qed.

Lemma rev_rev (s : string) : String.rev (String.rev s) = s.
Proof.
  induction s as [|c s IH]; [reflexivity|].
  rewrite rev_cons, rev_append, IH. reflexivity.
Qed.

(** What [TrimLeft] returns does not start with white space. *)
Lemma lead_TrimLeft (n : nat) :
  forall s, (String.length s <= n)%nat -> lead (TrimLeft s) = false.
Proof.
  induction n as [|n IH]; intros s Hn.
  - destruct s; [reflexivity | cbn in Hn; lia].
  - destruct s as [|c1 r1]; [reflexivity|]. cbn [String.length] in Hn. cbn [TrimLeft].
    destruct (asciiSpace c1) eqn:E1; [apply IH; lia|].
    destruct r1 as [|c2 r2]; [cbn [lead]; rewrite E1; reflexivity|].
    cbn [String.length] in Hn.
    destruct (isSpace2 c1 c2) eqn:E2; [apply IH; lia|].
    destruct r2 as [|c3 r3]; [cbn [lead]; rewrite E1, E2; reflexivity|].
    cbn [String.length] in Hn.
    destruct (isSpace3 c1 c2 c3) eqn:E3; [apply IH; lia|].
    cbn [lead]. rewrite E1, E2, E3. reflexivity.
Qed.

Lemma lead_rev_TrimLeftRev (n : nat) :
  forall s, (String.length s <= n)%nat -> lead_rev (TrimLeftRev s) = false.
Proof.
  induction n as [|n IH]; intros s Hn.
  - destruct s; [reflexivity | cbn in Hn; lia].
  - destruct s as [|c1 r1]; [reflexivity|]. cbn [String.length] in Hn. cbn [TrimLeftRev].
    destruct (asciiSpace c1) eqn:E1; [apply IH; lia|].
    destruct r1 as [|c2 r2]; [cbn [lead_rev]; rewrite E1; reflexivity|].
    cbn [String.length] in Hn.
    destruct (isSpace2 c2 c1) eqn:E2; [apply IH; lia|].
    destruct r2 as [|c3 r3]; [cbn [lead_rev]; rewrite E1, E2; reflexivity|].
    cbn [String.length] in Hn.
    destruct (isSpace3 c3 c2 c1) eqn:E3; [apply IH; lia|].
    cbn [lead_rev]. rewrite E1, E2, E3. reflexivity.
Qed.

(** [TrimLeftRev] returns a suffix of its argument. *)
Lemma TrimLeftRev_suffix (n : nat) :
  forall s, (String.length s <= n)%nat -> exists p, s = p ++ TrimLeftRev s.
Proof.
  induction n as [|n IH]; intros s Hn.
  - destruct s; [exists ""; reflexivity | cbn in Hn; lia].
  - destruct s as [|c1 r1]; [exists ""; reflexivity|].
    cbn [String.length] in Hn. cbn [TrimLeftRev].
    destruct (asciiSpace c1).
    { destruct (IH r1) as [p Hp]; [lia|]. exists (String c1 p).
      rewrite string_app_cons. congruence. }
    destruct r1 as [|c2 r2]; [exists ""; reflexivity|].
    cbn [String.length] in Hn.
    destruct (isSpace2 c2 c1).
    { destruct (IH r2) as [p Hp]; [lia|]. exists (String c1 (String c2 p)).
      rewrite !string_app_cons. congruence. }
    destruct r2 as [|c3 r3]; [exists ""; reflexivity|].
    cbn [String.length] in Hn.
    destruct (isSpace3 c3 c2 c1); [|exists ""; reflexivity].
    destruct (IH r3) as [p Hp]; [lia|].
    exists (String c1 (String c2 (String c3 p))). rewrite !string_app_cons. congruence.
Qed.

Lemma TrimLeft_fixed (s : string) : lead s = false -> TrimLeft s = s.
Proof.
  destruct s as [|c1 [|c2 [|c3 r]]]; cbn [lead TrimLeft]; intros H;
    repeat match goal with
      | H : (_ || _) = false |- _ => apply orb_false_elim in H as [? ?]
      end;
    repeat match goal with
      | H : ?b = false |- context [?b] => rewrite H
      end;
    reflexivity.
Qed.

Lemma TrimLeftRev_fixed (s : string) : lead_rev s = false -> TrimLeftRev s = s.
Proof.
  destruct s as [|c1 [|c2 [|c3 r]]]; cbn [lead_rev TrimLeftRev]; intros H;
    repeat match goal with
      | H : (_ || _) = false |- _ => apply orb_false_elim in H as [? ?]
      end;
    repeat match goal with
      | H : ?b = false |- context [?b] => rewrite H
      end;
    reflexivity.
Qed.

(** A string with no white space in front has none in front of its
    prefixes. *)
Lemma lead_prefix (p v : string) : lead (p ++ v) = false -> lead p = false.
Proof.
  destruct p as [|c1 [|c2 [|c3 r]]];
    rewrite ?string_app_cons, ?string_app_nil_l; cbn [lead]; intros H;
    try reflexivity;
    repeat match goal with
      | H : (_ || _) = false |- _ => apply orb_false_elim in H as [? ?]
      end;
    repeat match goal with
      | H : ?b = false |- context [?b] => rewrite H
      end;
    reflexivity.
Qed.

Lemma TrimRight_prefix (u : string) : exists v, u = TrimRight u ++ v.
Proof.
  unfold TrimRight.
  destruct (TrimLeftRev_suffix (String.length (String.rev u)) (String.rev u)) as [p Hp]; [lia|].
  exists (String.rev p).
  rewrite <- rev_append, <- Hp, rev_rev. reflexivity.
Qed.

(** [TrimSpace] leaves a trimmed string as it is. *)
Lemma TrimSpace_idempotent (s : string) : TrimSpace (TrimSpace s) = TrimSpace s.
Proof.
  unfold TrimSpace.
  set (u := TrimLeft s).
  assert (Hu : lead u = false) by (apply (lead_TrimLeft (String.length s)); lia).
  destruct (TrimRight_prefix u) as [v Hv].
  assert (Hw : lead (TrimRight u) = false).
  { apply (lead_prefix _ v). rewrite <- Hv. exact Hu. }
  rewrite (TrimLeft_fixed _ Hw).
  unfold TrimRight. rewrite rev_rev.
  rewrite (TrimLeftRev_fixed (TrimLeftRev (String.rev u))); [reflexivity|].
  apply (lead_rev_TrimLeftRev (String.length (String.rev u))). lia.
Qed.

End Trimming.

(** ** The text that the encoder writes *)

Section Encoded_text.

(** Turns the boolean tests in the context into arithmetic. *)
Ltac bools :=
  unfold rune2, rune3, rune4, cont, asciiSpace, isSpace2, isSpace3 in *; cbv zeta in *;
  repeat match goal with
    | H : (_ && _) = true |- _ => apply andb_prop in H as [? ?]
    | H : (_ || _) = true |- _ => apply orb_prop in H as [?|?]
    | H : (_ && _) = false |- _ => apply andb_false_iff in H as [?|?]
    | H : (_ <=? _) = true |- _ => apply Z.leb_le in H
    | H : (_ <=? _) = false |- _ => apply Z.leb_gt in H
    | H : (_ =? _) = true |- _ => apply Z.eqb_eq in H
    | H : (_ <? _) = true |- _ => apply Z.ltb_lt in H
    | H : (_ <? _) = false |- _ => apply Z.ltb_ge in H
    end.

(** Proves that a boolean test fails from the tests that hold. *)
Ltac refute :=
  match goal with
  | |- ?b = false => let E := fresh in destruct b eqn:E; [exfalso; bools; lia | reflexivity]
  end.

Lemma rune2_lead (c1 c2 : ascii) : rune2 c1 c2 = true -> (byte_val c1 <? 128) = false.
Proof. intros H. refute. Qed.

Lemma rune3_lead (c1 c2 c3 : ascii) :
  rune3 c1 c2 c3 = true -> (byte_val c1 <? 128) = false /\ rune2 c1 c2 = false.
Proof. intros H. split; refute. Qed.

Lemma rune4_lead (c1 c2 c3 c4 : ascii) :
  rune4 c1 c2 c3 c4 = true ->
  (byte_val c1 <? 128) = false /\ rune2 c1 c2 = false /\ rune3 c1 c2 c3 = false.
Proof. intros H. repeat split; refute. Qed.

Lemma encodedText_ascii (c1 : ascii) (y : string) :
  (byte_val c1 <? 128) = true -> encodedText (String c1 y) = String c1 (encodedText y).
Proof. intros H. cbn [encodedText]. rewrite H. reflexivity. Qed.

Lemma encodedText_rune2 (c1 c2 : ascii) (y : string) :
  rune2 c1 c2 = true ->
  encodedText (String c1 (String c2 y)) = String c1 (String c2 (encodedText y)).
Proof.
  intros H. cbn [encodedText]. rewrite (rune2_lead _ _ H), H. reflexivity.
Qed.

Lemma encodedText_rune3 (c1 c2 c3 : ascii) (y : string) :
  rune3 c1 c2 c3 = true ->
  encodedText (String c1 (String c2 (String c3 y)))
  = String c1 (String c2 (String c3 (encodedText y))).
Proof.
  intros H. destruct (rune3_lead _ _ _ H) as [H1 H2].
  cbn [encodedText]. rewrite H1, H2, H. reflexivity.
Qed.

Lemma encodedText_rune4 (c1 c2 c3 c4 : ascii) (y : string) :
  rune4 c1 c2 c3 c4 = true ->
  encodedText (String c1 (String c2 (String c3 (String c4 y))))
  = String c1 (String c2 (String c3 (String c4 (encodedText y)))).
Proof.
  intros H. destruct (rune4_lead _ _ _ _ H) as (H1 & H2 & H3).
  cbn [encodedText]. rewrite H1, H2, H3, H. reflexivity.
Qed.

Lemma encodedText_replacement (y : string) :
  encodedText (replacement ++ y) = replacement ++ encodedText y.
Proof. reflexivity. Qed.

(** What the encoder writes is valid UTF-8: encoding it again changes
    nothing. *)
Lemma encodedText_fixed (n : nat) :
  forall s, (String.length s <= n)%nat -> encodedText (encodedText s) = encodedText s.
Proof.
  induction n as [|n IH]; intros s Hn.
  - destruct s; [reflexivity | cbn in Hn; lia].
  - destruct s as [|c1 r1]; [reflexivity|]. cbn [String.length] in Hn.
    assert (Hbad : encodedText (replacement ++ encodedText r1) = replacement ++ encodedText r1).
    { rewrite encodedText_replacement, IH by lia. reflexivity. }
    cbn [encodedText].
    destruct (byte_val c1 <? 128) eqn:E1.
    { rewrite encodedText_ascii, IH by (assumption || lia). reflexivity. }
    destruct r1 as [|c2 r2]; [exact Hbad|]. cbn [String.length] in Hn.
    destruct (rune2 c1 c2) eqn:E2.
    { rewrite encodedText_rune2, IH by (assumption || lia). reflexivity. }
    destruct r2 as [|c3 r3]; [exact Hbad|]. cbn [String.length] in Hn.
    destruct (rune3 c1 c2 c3) eqn:E3.
    { rewrite encodedText_rune3, IH by (assumption || lia). reflexivity. }
    destruct r3 as [|c4 r4]; [exact Hbad|]. cbn [String.length] in Hn.
    destruct (rune4 c1 c2 c3 c4) eqn:E4; [|exact Hbad].
    rewrite encodedText_rune4, IH by (assumption || lia). reflexivity.
Qed.

Lemma encodedText_idempotent (s : string) : encodedText (encodedText s) = encodedText s.
Proof. apply (encodedText_fixed (String.length s)). lia. Qed.

(** Proves that a boolean test holds from the tests that hold. *)
Ltac affirm :=
  match goal with
  | |- ?b = true => let E := fresh in destruct b eqn:E; [reflexivity | exfalso; bools; lia]
  end.

(** The white-space runes are runes. *)
Lemma asciiSpace_ascii (c : ascii) : asciiSpace c = true -> (byte_val c <? 128) = true.
Proof. intros H. affirm. Qed.

Lemma isSpace2_rune2 (c1 c2 : ascii) : isSpace2 c1 c2 = true -> rune2 c1 c2 = true.
Proof. intros H. affirm. Qed.

Lemma isSpace3_rune3 (c1 c2 c3 : ascii) : isSpace3 c1 c2 c3 = true -> rune3 c1 c2 c3 = true.
Proof. intros H. affirm. Qed.

(** One step of [encodedText]. *)
Lemma encodedText_eq (c1 : ascii) (r1 : string) :
  encodedText (String c1 r1)
  = if byte_val c1 <? 128 then String c1 (encodedText r1)
    else
      match r1 with
      | String c2 r2 =>
          if rune2 c1 c2 then String c1 (String c2 (encodedText r2))
          else
            match r2 with
            | String c3 r3 =>
                if rune3 c1 c2 c3 then String c1 (String c2 (String c3 (encodedText r3)))
                else
                  match r3 with
                  | String c4 r4 =>
                      if rune4 c1 c2 c3 c4
                      then String c1 (String c2 (String c3 (String c4 (encodedText r4))))
                      else replacement ++ encodedText r1
                  | EmptyString => replacement ++ encodedText r1
                  end
            | EmptyString => replacement ++ encodedText r1
            end
      | EmptyString => replacement ++ encodedText r1
      end.
Proof. reflexivity. Qed.

(** Trimming white space in front keeps valid UTF-8 valid. *)
Lemma valid_TrimLeft (n : nat) :
  forall s, (String.length s <= n)%nat ->
    encodedText s = s -> encodedText (TrimLeft s) = TrimLeft s.
Proof.
  induction n as [|n IH]; intros s Hn Hs.
  - destruct s; [reflexivity | cbn in Hn; lia].
  - destruct s as [|c1 r1]; [reflexivity|]. cbn [String.length] in Hn. cbn [TrimLeft].
    destruct (asciiSpace c1) eqn:E1.
    { rewrite encodedText_ascii in Hs by (apply asciiSpace_ascii, E1).
      injection Hs as Hs. apply IH; [lia | exact Hs]. }
    destruct r1 as [|c2 r2]; [exact Hs|]. cbn [String.length] in Hn.
    destruct (isSpace2 c1 c2) eqn:E2.
    { rewrite encodedText_rune2 in Hs by (apply isSpace2_rune2, E2).
      injection Hs as Hs. apply IH; [lia | exact Hs]. }
    destruct r2 as [|c3 r3]; [exact Hs|]. cbn [String.length] in Hn.
    destruct (isSpace3 c1 c2 c3) eqn:E3; [|exact Hs].
    rewrite encodedText_rune3 in Hs by (apply isSpace3_rune3, E3).
    injection Hs as Hs. apply IH; [lia | exact Hs].
Qed.

(** A byte that is no continuation byte ends every sequence before it:
    the text of [p] followed by such a byte is the text of [p] followed by
    the text of the rest. *)
Lemma encodedText_app_boundary (n : nat) :
  forall p, (String.length p <= n)%nat ->
    forall c0 w, cont c0 = false ->
      encodedText (p ++ String c0 w) = encodedText p ++ encodedText (String c0 w).
Proof.
  induction n as [|n IH]; intros p Hn c0 w Hc0.
  - destruct p; [reflexivity | cbn in Hn; lia].
  - destruct p as [|c1 r1]; [reflexivity|]. cbn [String.length] in Hn.
    assert (F2 : forall c, rune2 c c0 = false) by (intros c; refute).
    assert (F3a : forall c c', rune3 c c0 c' = false) by (intros c c'; refute).
    assert (F3b : forall c c', rune3 c c' c0 = false) by (intros c c'; refute).
    assert (F4a : forall c c' c'', rune4 c c0 c' c'' = false) by (intros c c' c''; refute).
    assert (F4b : forall c c' c'', rune4 c c' c0 c'' = false) by (intros c c' c''; refute).
    assert (F4c : forall c c' c'', rune4 c c' c'' c0 = false) by (intros c c' c''; refute).
    assert (Hbad : replacement ++ encodedText (r1 ++ String c0 w)
                   = (replacement ++ encodedText r1) ++ encodedText (String c0 w)).
    { rewrite IH by (lia || assumption). rewrite string_app_assoc. reflexivity. }
    rewrite string_app_cons.
    rewrite (encodedText_eq c1 (r1 ++ String c0 w)), (encodedText_eq c1 r1).
    destruct (byte_val c1 <? 128) eqn:E1.
    { rewrite IH by (lia || assumption). reflexivity. }
    destruct r1 as [|c2 r2].
    { rewrite string_app_nil_l in *. cbv beta iota. rewrite F2.
      destruct w as [|c3 w]; [exact Hbad|]. rewrite F3a.
      destruct w as [|c4 w]; [exact Hbad|]. rewrite F4a. exact Hbad. }
    cbn [String.length] in Hn. rewrite string_app_cons in *. cbv beta iota.
    destruct (rune2 c1 c2) eqn:E2.
    { rewrite IH by (lia || assumption). reflexivity. }
    destruct r2 as [|c3 r3].
    { rewrite string_app_nil_l in *. cbv beta iota. rewrite F3b.
      destruct w as [|c4 w]; [exact Hbad|]. rewrite F4b. exact Hbad. }
    cbn [String.length] in Hn. rewrite string_app_cons in *. cbv beta iota.
    destruct (rune3 c1 c2 c3) eqn:E3.
    { rewrite IH by (lia || assumption). reflexivity. }
    destruct r3 as [|c4 r4].
    { rewrite string_app_nil_l in *. cbv beta iota. rewrite F4c. exact Hbad. }
    cbn [String.length] in Hn. rewrite string_app_cons in *. cbv beta iota.
    destruct (rune4 c1 c2 c3 c4) eqn:E4; [|exact Hbad].
    rewrite IH by (lia || assumption). reflexivity.
Qed.

Lemma string_app_cancel_r (a b u : string) : a ++ u = b ++ u -> a = b.
Proof.
  intros H. apply (f_equal String.rev) in H. rewrite !rev_append in H.
  apply (inj (String.app (String.rev u))) in H.
  rewrite <- (rev_rev a), <- (rev_rev b), H. reflexivity.
Qed.

(** Valid UTF-8 stays valid when a rune is taken off its end. *)
Lemma valid_before_rune (p : string) (c0 : ascii) (w : string) :
  cont c0 = false ->
  encodedText (String c0 w) = String c0 w ->
  encodedText (p ++ String c0 w) = p ++ String c0 w ->
  encodedText p = p.
Proof.
  intros Hc0 Hw H.
  rewrite (encodedText_app_boundary (String.length p) p) in H by (lia || assumption).
  rewrite Hw in H. exact (string_app_cancel_r _ _ _ H).
Qed.

(** Trimming white space at the end keeps valid UTF-8 valid. *)
Lemma valid_TrimLeftRev (n : nat) :
  forall x, (String.length x <= n)%nat ->
    encodedText (String.rev x) = String.rev x ->
    encodedText (String.rev (TrimLeftRev x)) = String.rev (TrimLeftRev x).
Proof.
  induction n as [|n IH]; intros x Hn Hx.
  - destruct x; [reflexivity | cbn in Hn; lia].
  - destruct x as [|c1 x1]; [reflexivity|]. cbn [String.length] in Hn. cbn [TrimLeftRev].
    destruct (asciiSpace c1) eqn:E1.
    { apply IH; [lia|]. rewrite rev_cons in Hx.
      apply (valid_before_rune _ c1 "") in Hx; [exact Hx | refute |].
      apply encodedText_ascii, asciiSpace_ascii, E1. }
    destruct x1 as [|c2 x2]; [exact Hx|]. cbn [String.length] in Hn.
    destruct (isSpace2 c2 c1) eqn:E2.
    { apply IH; [lia|]. rewrite !rev_cons, string_app_assoc in Hx.
      change (String c2 "" ++ String c1 "") with (String c2 (String c1 "")) in Hx.
      apply (valid_before_rune _ c2 (String c1 "")) in Hx; [exact Hx | refute |].
      apply encodedText_rune2, isSpace2_rune2, E2. }
    destruct x2 as [|c3 x3]; [exact Hx|]. cbn [String.length] in Hn.
    destruct (isSpace3 c3 c2 c1) eqn:E3; [|exact Hx].
    apply IH; [lia|]. rewrite !rev_cons, !string_app_assoc in Hx.
    change (String c3 "" ++ String c2 "" ++ String c1 "")
      with (String c3 (String c2 (String c1 ""))) in Hx.
    apply (valid_before_rune _ c3 (String c2 (String c1 ""))) in Hx; [exact Hx | refute |].
    apply encodedText_rune3, isSpace3_rune3, E3.
Qed.

(** Trimming keeps valid UTF-8 valid. *)
Lemma valid_TrimSpace (t : string) :
  encodedText t = t -> encodedText (TrimSpace t) = TrimSpace t.
Proof.
  intros Ht. unfold TrimSpace, TrimRight.
  apply (valid_TrimLeftRev (String.length (String.rev (TrimLeft t)))); [lia|].
  rewrite rev_rev. apply (valid_TrimLeft (String.length t)); [lia | exact Ht].
Qed.

(** An error response carries its message as the encoder writes it. *)
Lemma writeJSON_error_text (code : Z) (e : string) :
  writeJSON newResponseWriter code (errorBody e)
  = writeJSON newResponseWriter code (errorBody (encodedText e))
  /\ Written (writeJSON newResponseWriter code (errorBody e)) = [error_json (encodedText e)].
Proof.
  split; [|reflexivity].
  unfold writeJSON, Encoder_Encode, errorBody. cbn [Encode map fst snd].
  rewrite encodedText_idempotent. reflexivity.
Qed.

End Encoded_text.

(** ** The item endpoint and its identifier *)

Section Item_endpoint.

Variables (r : Request) (db : DB) (drv : Driver).

Lemma path_id_Some (id : Z) :
  path_id r = Some id ->
  ParseInt (TrimPrefix (URL_Path r) "/movies/") = (id, None) /\ 0 < id.
Proof.
  unfold path_id. destruct (ParseInt _) as [n [e|]]; [discriminate|].
  destruct (Z.ltb_spec 0 n); [|discriminate].
  intros [= ->]. auto.
Qed.

(** A rejected identifier ends the handler at its first test, whatever the
    method. *)
Lemma movie_handler_invalid :
  path_id r = None -> movie_handler r db drv = invalid_id_result db.
Proof.
  unfold path_id, movie_handler.
  destruct (ParseInt _) as [n [e|]]; [reflexivity|].
  destruct (Z.ltb_spec 0 n) as [Hn|Hn]; [discriminate|].
  intros _. cbn [notNil orb].
  destruct (Z.leb_spec n 0); [reflexivity | lia].
Qed.

(** An accepted identifier passes it. *)
Lemma movie_handler_valid (id : Z) :
  path_id r = Some id ->
  movie_handler r db drv =
    let w := newResponseWriter in
    if String.eqb (Method r) MethodGet then
      let tr := [Sql (SelectMovie id)] in
      match QueryRow_select drv id db with
      | inr ErrNoRows => finish (writeJSON w StatusNotFound (errorBody "not found")) db tr
      | inr e => finish (writeJSON w StatusInternalServerError (errorBody (Error e))) db tr
      | inl m => finish (writeJSON w StatusOK (VMovie m)) db tr
      end
    else if String.eqb (Method r) MethodPut then
      let '(title, err) := readJSON r in
      match err with
      | Some _ => finish (writeJSON w StatusBadRequest (errorBody "invalid json")) db [ReadBody]
      | None =>
          let title := TrimSpace title in
          if String.eqb title "" then
            finish (writeJSON w StatusBadRequest (errorBody "title is required")) db [ReadBody]
          else
            let tr := [ReadBody; Sql (UpdateMovie title id)] in
            match Exec_update drv title id db with
            | (db', inr e) =>
                finish (writeJSON w StatusInternalServerError (errorBody (Error e))) db' tr
            | (db', inl aff) =>
                if aff =? 0
                then finish (writeJSON w StatusNotFound (errorBody "not found")) db' tr
                else finish (writeJSON w StatusOK (VMovie {| ID := id; Title := title |})) db' tr
            end
      end
    else if String.eqb (Method r) MethodDelete then
      let tr := [Sql (DeleteMovie id)] in
      match Exec_delete drv id db with
      | (db', inr e) =>
          finish (writeJSON w StatusInternalServerError (errorBody (Error e))) db' tr
      | (db', inl aff) =>
          if aff =? 0
          then finish (writeJSON w StatusNotFound (errorBody "not found")) db' tr
          else finish (WriteHeader w StatusNoContent) db' tr
      end
    else finish (WriteHeader w StatusMethodNotAllowed) db [].
Proof.
  intros H. apply path_id_Some in H as [HP Hpos].
  unfold movie_handler. rewrite HP. cbn [notNil orb].
  destruct (Z.leb_spec id 0); [lia | reflexivity].
Qed.

End Item_endpoint.

Lemma TrimPrefix_movies (seg : string) : TrimPrefix ("/movies/" ++ seg) "/movies/" = seg.
Proof. reflexivity. Qed.

(** *** What a response carries *)

Lemma Code_writeJSON (code : Z) (v : GoValue) :
  Code (writeJSON newResponseWriter code v) = Some code.
Proof. reflexivity. Qed.

Lemma Written_writeJSON (code : Z) (v : GoValue) :
  Written (writeJSON newResponseWriter code v) = [Encode v].
Proof. reflexivity. Qed.

Lemma Header_writeJSON (code : Z) (v : GoValue) :
  Header (writeJSON newResponseWriter code v) !! "Content-Type" = Some "application/json".
Proof.
  unfold writeJSON, Encoder_Encode, WriteHeader, Header_Set. cbn [Code newResponseWriter Header].
  apply lookup_insert_eq.
Qed.

Lemma bare_spec (code : Z) :
  Code (bare code) = Some code /\ Written (bare code) = [] /\ Header (bare code) = ∅.
Proof. repeat split. Qed.

(** C10: a PUT or DELETE on [/movies/{id}] whose identifier is rejected is
    answered 400 before the body is read and before any statement is sent:
    the trace of effects is empty and the store is the one before. *)
Theorem C10_invalid_id_no_effect (r : Request) (db : DB) (drv : Driver) :
  Method r = MethodPut \/ Method r = MethodDelete ->
  path_id r = None ->
  let res := movie_handler r db drv in
  resp res = writeJSON newResponseWriter StatusBadRequest (errorBody "invalid id")
  /\ Code (resp res) = Some StatusBadRequest
  /\ trace res = []
  /\ db_after res = db.
Proof.
  intros _ Hid res. subst res. rewrite movie_handler_invalid by assumption.
  repeat split.
Qed.

Lemma C10_witness :
  let r := put_movie "-1" "Dune" in
  let res := movie_handler r db_empty healthy in
  resp res = writeJSON newResponseWriter StatusBadRequest (errorBody "invalid id")
  /\ Code (resp res) = Some StatusBadRequest
  /\ trace res = []
  /\ db_after res = db_empty.
Proof.
  apply (C10_invalid_id_no_effect (put_movie "-1" "Dune") db_empty healthy).
  - left. reflexivity.
  - vm_compute. reflexivity.
Defined.

(** C9: the identifier is read as a signed 64-bit decimal number.  A
    segment [+n], with [0 < n < 2^63], is read as the identifier [n] and
    served as the segment [n] is: a GET looks [n] up, and is answered 200
    with the row when the table has it and 404 when it has not.  A segment
    of digits, with or without [+], whose value exceeds 2^63 - 1 makes the
    parse fail with a range error: whatever the method, the answer is 400
    with [invalid id], and nothing is read from the body or sent to the
    database. *)
Theorem C9_signed_64bit_identifier
    (n : Z) (s m : string) (body : option json) (db : DB) (drv : Driver) :
  0 < n < 2 ^ 63 ->
  all_digits s = true -> s <> "" -> 2 ^ 63 - 1 < dec_value s ->
  let req seg := {| Method := m; URL_Path := "/movies/" ++ seg; Body := body |} in
  let get seg := {| Method := MethodGet; URL_Path := "/movies/" ++ seg; Body := body |} in
  let plus := movie_handler (get (String "+" (itoa n))) db drv in
  (ParseInt (String "+" (itoa n)) = (n, None)
   /\ path_id (req (String "+" (itoa n))) = Some n
   /\ movie_handler (req (String "+" (itoa n))) db drv = movie_handler (req (itoa n)) db drv
   /\ trace plus = [Sql (SelectMovie n)]
   /\ (stmt_err drv = None ->
       forall title, movies db !! n = Some title ->
         Code (resp plus) = Some StatusOK
         /\ Written (resp plus)
            = [JObject [("id", JNumber (itoa n)); ("title", JString (encodedText title))]])
   /\ (stmt_err drv = None -> movies db !! n = None ->
       Code (resp plus) = Some StatusNotFound
       /\ Written (resp plus) = [JObject [("error", JString "not found")]]))
  /\ (snd (ParseInt s) = Some ErrRange
      /\ snd (ParseInt (String "+" s)) = Some ErrRange
      /\ movie_handler (req s) db drv = invalid_id_result db
      /\ movie_handler (req (String "+" s)) db drv = invalid_id_result db
      /\ forall seg, seg = s \/ seg = String "+" s ->
           let res := movie_handler (req seg) db drv in
           Code (resp res) = Some StatusBadRequest
           /\ Written (resp res) = [JObject [("error", JString "invalid id")]]
           /\ trace res = []
           /\ db_after res = db).
Proof.
  intros Hn Hd Hne Hbig req get plus. subst plus get req. cbv beta.
  assert (Hplus : ParseInt (String "+" (itoa n)) = (n, None)).
  { rewrite ParseInt_plus by (apply itoa_digits || apply itoa_nonempty; lia).
    apply ParseInt_itoa. lia. }
  assert (Hidp : forall m', path_id {| Method := m'; URL_Path := "/movies/" ++ String "+" (itoa n);
                                       Body := body |} = Some n).
  { intros m'. unfold path_id. cbn [URL_Path]. rewrite TrimPrefix_movies, Hplus.
    destruct (Z.ltb_spec 0 n); [reflexivity | lia]. }
  assert (Hid2 : path_id {| Method := m; URL_Path := "/movies/" ++ itoa n; Body := body |}
                 = Some n).
  { unfold path_id. cbn [URL_Path]. rewrite TrimPrefix_movies.
    rewrite ParseInt_itoa by lia.
    destruct (Z.ltb_spec 0 n); [reflexivity | lia]. }
  assert (Hs : ParseInt s = (2 ^ 63 - 1, Some ErrRange)).
  { rewrite ParseInt_digits by assumption.
    destruct (Z.ltb_spec (dec_value s) (2 ^ 63)); [lia | reflexivity]. }
  assert (Hs' : ParseInt (String "+" s) = (2 ^ 63 - 1, Some ErrRange)).
  { rewrite ParseInt_plus by assumption. exact Hs. }
  assert (Hbad1 : movie_handler {| Method := m; URL_Path := "/movies/" ++ s; Body := body |}
                    db drv = invalid_id_result db).
  { apply movie_handler_invalid. unfold path_id. cbn [URL_Path].
    rewrite TrimPrefix_movies, Hs. reflexivity. }
  assert (Hbad2 : movie_handler {| Method := m; URL_Path := "/movies/" ++ String "+" s;
                                   Body := body |} db drv = invalid_id_result db).
  { apply movie_handler_invalid. unfold path_id. cbn [URL_Path].
    rewrite TrimPrefix_movies, Hs'. reflexivity. }
  split.
  - split; [exact Hplus|]. split; [apply Hidp|]. split.
    { rewrite (movie_handler_valid _ db drv n (Hidp m)).
      rewrite (movie_handler_valid _ db drv n Hid2). reflexivity. }
    rewrite (movie_handler_valid _ db drv n (Hidp MethodGet)). cbv zeta.
    cbn [Method].
    change (String.eqb MethodGet MethodGet) with true. cbv iota.
    unfold QueryRow_select, Postgres.select_by_id.
    split; [|split].
    + destruct (stmt_err drv); [reflexivity|].
      destruct (movies db !! n); reflexivity.
    + intros -> title ->. cbn [resp finish].
      rewrite Code_writeJSON, Written_writeJSON. cbn [Encode].
      unfold encodeMovie, FormatInt. cbn [ID Title].
      destruct (Z.ltb_spec n 0); [lia|]. split; reflexivity.
    + intros -> ->. split; reflexivity.
  - rewrite Hs, Hs'. split; [reflexivity|]. split; [reflexivity|].
    split; [exact Hbad1|]. split; [exact Hbad2|].
    intros seg [-> | ->]; [rewrite Hbad1 | rewrite Hbad2]; repeat split.
Qed.

Lemma C9_witness :
  let get seg := {| Method := MethodGet; URL_Path := "/movies/" ++ seg; Body := None |} in
  (ParseInt "+1" = (1, None)
   /\ path_id (get "+1") = Some 1
   /\ trace (movie_handler (get "+1") db_dune healthy) = [Sql (SelectMovie 1)]
   /\ Code (resp (movie_handler (get "+1") db_dune healthy)) = Some 200
   /\ Written (resp (movie_handler (get "+1") db_dune healthy))
      = [JObject [("id", JNumber "1"); ("title", JString "Dune")]]
   /\ Code (resp (movie_handler (get "+1") db_empty healthy)) = Some 404)
  /\ (snd (ParseInt "9223372036854775808") = Some ErrRange
      /\ snd (ParseInt "+9223372036854775808") = Some ErrRange
      /\ Code (resp (movie_handler (get "9223372036854775808") db_dune healthy)) = Some 400
      /\ Written (resp (movie_handler (get "9223372036854775808") db_dune healthy))
         = [JObject [("error", JString "invalid id")]]
      /\ trace (movie_handler (get "9223372036854775808") db_dune healthy) = []
      /\ Code (resp (movie_handler (get "+9223372036854775808") db_dune healthy)) = Some 400
      /\ trace (movie_handler (get "+9223372036854775808") db_dune healthy) = []).
Proof.
  cbv zeta.
  assert (Hn : 0 < 1 < 2 ^ 63) by lia.
  assert (Hbig : 2 ^ 63 - 1 < dec_value "9223372036854775808") by (vm_compute; reflexivity).
  assert (Hne : "9223372036854775808" <> "") by discriminate.
  destruct (C9_signed_64bit_identifier 1 "9223372036854775808" MethodGet None db_dune healthy
              Hn eq_refl Hne Hbig)
    as ((Hp & Hid & _ & Htr & Hrow & _) & (Hr1 & Hr2 & _ & _ & Hbad)).
  destruct (Hrow eq_refl "Dune" eq_refl) as [Hc Hw].
  destruct (C9_signed_64bit_identifier 1 "9223372036854775808" MethodGet None db_empty healthy
              Hn eq_refl Hne Hbig)
    as ((_ & _ & _ & _ & _ & Habsent) & _).
  destruct (Habsent eq_refl eq_refl) as [Hc404 _].
  destruct (Hbad "9223372036854775808" (or_introl eq_refl)) as (Hb1 & Hb2 & Hb3 & _).
  destruct (Hbad "+9223372036854775808" (or_intror eq_refl)) as (Hb4 & _ & Hb5 & _).
  split; [repeat split; assumption|].
  repeat split; assumption.
Defined.

(** C4 fails as stated: a PUT on [/movies/1] with a blank title is answered
    400 although [1] is a positive identifier. *)
Lemma C4_counterexample : ~ C4_as_stated.
Proof.
  intros H.
  specialize (H (put_movie "1" "  ") db_empty healthy eq_refl).
  destruct H as [H _]; [cbn; auto|].
  specialize (H eq_refl). vm_compute in H. discriminate.
Qed.

(** C4, amended: on [/movies/{id}] the answer is 400 exactly when the
    identifier is rejected, or the request is a PUT whose body [readJSON]
    rejects or whose title is empty once trimmed; when the identifier is
    rejected the answer is the one for an invalid id, and nothing was read
    from the body or sent to the database. *)
Theorem C4_bad_request_on_item (r : Request) (db : DB) (drv : Driver) :
  (Code (resp (movie_handler r db drv)) = Some StatusBadRequest
   <-> (path_id r = None
        \/ (Method r = MethodPut
            /\ (snd (readJSON r) <> None \/ TrimSpace (fst (readJSON r)) = ""))))
  /\ (path_id r = None ->
      movie_handler r db drv = invalid_id_result db
      /\ trace (movie_handler r db drv) = []
      /\ db_after (movie_handler r db drv) = db).
Proof.
  split.
  - destruct (path_id r) as [id|] eqn:Hid.
    + rewrite (movie_handler_valid r db drv id Hid). cbv zeta.
      split.
      * intros H. right. revert H. unfold MethodGet, MethodPut, MethodDelete.
        handler_cases; cbn [resp finish]; rewrite ?Code_writeJSON;
          cbn [fst snd]; intros H; try (vm_compute in H; discriminate).
        all: split; [assumption|]; first [left; discriminate | right; assumption].
      * intros [H|[HM HB]]; [discriminate|].
        unfold MethodGet, MethodPut, MethodDelete in *.
        handler_cases; try congruence; cbn [fst snd] in HB;
          cbn [resp finish]; rewrite ?Code_writeJSON; try reflexivity.
        all: destruct HB as [HB|HB]; congruence.
    + rewrite (movie_handler_invalid r db drv Hid). split; [auto | reflexivity].
  - intros Hid. rewrite (movie_handler_invalid r db drv Hid). repeat split.
Qed.



(** ** The collection endpoint *)

Section Collection_endpoint.

Variables (r : Request) (db : DB) (drv : Driver).

(** The POST branch of the handler of [/movies]. *)
Lemma movies_handler_post :
  Method r = MethodPost ->
  movies_handler r db drv =
    let w := newResponseWriter in
    let '(title, err) := readJSON r in
    match err with
    | Some _ => finish (writeJSON w StatusBadRequest (errorBody "invalid json")) db [ReadBody]
    | None =>
        let title := TrimSpace title in
        if String.eqb title "" then
          finish (writeJSON w StatusBadRequest (errorBody "title is required")) db [ReadBody]
        else
          let tr := [ReadBody; Sql (InsertMovie title)] in
          match QueryRow_insert drv title db with
          | (db', inr e) =>
              finish (writeJSON w StatusInternalServerError (errorBody (Error e))) db' tr
          | (db', inl id) =>
              finish (writeJSON w StatusCreated (VMovie {| ID := id; Title := title |})) db' tr
          end
    end.
Proof. intros HM. unfold movies_handler. rewrite HM. reflexivity. Qed.

(** An insertion that returns a key took it from the sequence, found no
    row under it and added the row. *)
Lemma QueryRow_insert_ok (title : string) (db' : DB) (id : Z) :
  QueryRow_insert drv title db = (db', inl id) ->
  stmt_err drv = None
  /\ id = movies_id_seq db
  /\ id <= Postgres.int4_max
  /\ movies db !! id = None
  /\ db' = {| movies := <[id := title]> (movies db); movies_id_seq := id + 1 |}.
Proof.
  unfold QueryRow_insert, Postgres.insert.
  destruct (stmt_err drv); [discriminate|].
  destruct (Z.ltb_spec Postgres.int4_max (movies_id_seq db)); [discriminate|].
  destruct (movies db !! movies_id_seq db) eqn:Hrow; [discriminate|].
  intros [= <- <-]. auto.
Qed.

(** An insertion that fails leaves the rows as they were. *)
Lemma QueryRow_insert_err (title : string) (db' : DB) (e : error) :
  QueryRow_insert drv title db = (db', inr e) -> movies db' = movies db.
Proof.
  unfold QueryRow_insert, Postgres.insert.
  destruct (stmt_err drv); [intros [= <- _]; reflexivity|].
  destruct (Z.ltb_spec Postgres.int4_max (movies_id_seq db)); [intros [= <- _]; reflexivity|].
  destruct (movies db !! movies_id_seq db); [intros [= <- _]; reflexivity | discriminate].
Qed.

(** The listing of a table without rows: the slice stays [nil]. *)
Lemma movies_handler_get_empty :
  Method r = MethodGet -> movies db = ∅ -> stmt_err drv = None ->
  movies_handler r db drv
  = finish (writeJSON newResponseWriter StatusOK (VMovies None)) db [Sql SelectAll].
Proof.
  intros HM Hrows Herr. unfold movies_handler. rewrite HM, Herr.
  change (String.eqb MethodGet MethodGet) with true. cbv iota.
  unfold Postgres.select_all, delivered. rewrite Hrows, map_to_list_empty.
  destruct (next_stop drv) as [k|]; [destruct k|]; reflexivity.
Qed.

End Collection_endpoint.

Lemma readJSON_title (m path t : string) :
  readJSON {| Method := m; URL_Path := path; Body := Some (JObject [("title", JString t)]) |}
  = (t, None).
Proof. reflexivity. Qed.

(** A POST with a title that is not blank is answered 201 when the driver
    executes the INSERT, the sequence is within [int4] and its next value
    is free in the table. *)
Lemma post_movie_created (t : string) (db : DB) (drv : Driver) :
  TrimSpace t <> "" ->
  stmt_err drv = None ->
  movies_id_seq db <= Postgres.int4_max ->
  movies db !! movies_id_seq db = None ->
  Code (resp (movies_handler (post_movie t) db drv)) = Some StatusCreated.
Proof.
  intros Ht Hdrv Hmax Hfree.
  rewrite (movies_handler_post (post_movie t) db drv eq_refl).
  cbv zeta. unfold post_movie. rewrite readJSON_title.
  destruct (String.eqb_spec (TrimSpace t) ""); [contradiction|].
  unfold QueryRow_insert, Postgres.insert. rewrite Hdrv, Hfree.
  destruct (Z.ltb_spec Postgres.int4_max (movies_id_seq db)); [lia | reflexivity].
Qed.

(** What the encoder writes for a movie whose title is valid UTF-8. *)
Lemma encodeMovie_valid (id : Z) (title : string) :
  encodedText title = title ->
  encodeMovie {| ID := id; Title := title |}
  = JObject [("id", JNumber (FormatInt id)); ("title", JString title)].
Proof. intros H. unfold encodeMovie. cbn [ID Title]. rewrite H. reflexivity. Qed.

(** C1: after a POST on [/movies] with the body [{"title": t}], [t] valid
    UTF-8 (as every text that the decoder yields) and not empty once
    trimmed, that is answered 201, the body of the answer is the object of
    the identifier taken from the sequence and the trimmed title, the row is
    in the table, and a GET on [/movies/{id}] with that identifier, on the
    store the POST left, looks the identifier up and is answered 200,
    [Content-Type: application/json], with the same object: the title
    written is the trimmed [t]. *)
Theorem C1_post_then_get (t : string) (db : DB) (drv1 drv2 : Driver) :
  TrimSpace t <> "" ->
  encodedText t = t ->
  db_ok db ->
  stmt_err drv2 = None ->
  let posted := movies_handler (post_movie t) db drv1 in
  Code (resp posted) = Some StatusCreated ->
  let id := movies_id_seq db in
  let movie := JObject [("id", JNumber (FormatInt id)); ("title", JString (TrimSpace t))] in
  let got := movie_handler (get_movie id) (db_after posted) drv2 in
  Written (resp posted) = [movie]
  /\ movies (db_after posted) !! id = Some (TrimSpace t)
  /\ trace got = [Sql (SelectMovie id)]
  /\ Code (resp got) = Some StatusOK
  /\ Written (resp got) = [movie]
  /\ Header (resp got) !! "Content-Type" = Some "application/json"
  /\ resp posted
     = writeJSON newResponseWriter StatusCreated (VMovie {| ID := id; Title := TrimSpace t |})
  /\ resp got
     = writeJSON newResponseWriter StatusOK (VMovie {| ID := id; Title := TrimSpace t |}).
Proof.
  intros Ht Hvalid Hok Hdrv posted Hcode id movie got. subst posted movie got.
  pose proof (valid_TrimSpace t Hvalid) as Hvt.
  rewrite (movies_handler_post (post_movie t) db drv1 eq_refl) in *.
  cbv zeta in *. unfold post_movie in *. rewrite readJSON_title in *.
  destruct (String.eqb_spec (TrimSpace t) ""); [contradiction|].
  destruct (QueryRow_insert drv1 (TrimSpace t) db) as [db' [k|e]] eqn:Hins;
    [|vm_compute in Hcode; discriminate].
  apply QueryRow_insert_ok in Hins as (_ & -> & Hmax & Hfree & ->).
  cbn [resp db_after finish movies].
  assert (Hid : path_id (get_movie id) = Some id).
  { unfold path_id, get_movie. cbn [URL_Path]. rewrite TrimPrefix_movies.
    unfold db_ok in Hok. unfold Postgres.int4_max in Hmax. subst id.
    rewrite ParseInt_FormatInt by lia.
    destruct (Z.ltb_spec 0 (movies_id_seq db)); [reflexivity | lia]. }
  rewrite (movie_handler_valid _ _ drv2 id Hid). cbv zeta.
  change (String.eqb (Method (get_movie id)) MethodGet) with true. cbv iota.
  unfold QueryRow_select, Postgres.select_by_id. rewrite Hdrv. cbn [movies].
  subst id. rewrite lookup_insert_eq. cbn [resp trace finish].
  rewrite !Written_writeJSON, Code_writeJSON. cbn [Encode].
  rewrite (encodeMovie_valid _ _ Hvt).
  repeat split.
Qed.

Lemma C1_witness :
  let posted := movies_handler (post_movie "  Dune ") db_empty healthy in
  let movie := JObject [("id", JNumber "1"); ("title", JString "Dune")] in
  let got := movie_handler (get_movie 1) (db_after posted) healthy in
  Written (resp posted) = [movie]
  /\ movies (db_after posted) !! 1 = Some "Dune"
  /\ trace got = [Sql (SelectMovie 1)]
  /\ Code (resp got) = Some 200
  /\ Written (resp got) = [movie]
  /\ Header (resp got) !! "Content-Type" = Some "application/json"
  /\ resp posted
     = writeJSON newResponseWriter 201 (VMovie {| ID := 1; Title := "Dune" |})
  /\ resp got
     = writeJSON newResponseWriter 200 (VMovie {| ID := 1; Title := "Dune" |}).
Proof.
  apply (C1_post_then_get "  Dune " db_empty healthy healthy).
  - vm_compute. discriminate.
  - reflexivity.
  - unfold db_ok. simpl. lia.
  - reflexivity.
  - vm_compute. reflexivity.
Defined.

(** C3 fails on the code: the listing of a table without rows is answered
    200 with the body [null], where the claim has the empty sequence [[]].
    [out] is declared [var out []Movie], a [nil] slice, and no row is ever
    appended to it. *)
Theorem C3_empty_table_lists_null :
  let r := {| Method := MethodGet; URL_Path := "/movies"; Body := None |} in
  let res := movies_handler r db_empty healthy in
  Code (resp res) = Some StatusOK
  /\ Written (resp res) = [JNull]
  /\ Written (resp res) <> [JArray []].
Proof.
  cbv zeta.
  rewrite (movies_handler_get_empty {| Method := MethodGet; URL_Path := "/movies"; Body := None |}
             db_empty healthy eq_refl eq_refl eq_refl).
  cbn [resp finish]. rewrite Code_writeJSON, Written_writeJSON.
  repeat split. discriminate.
Qed.

(** *** Decoding the body *)

Lemma decodeMembers_saved (members : list (string * json)) :
  forall title e, snd (decodeMembers members title (Some e)) = Some e.
Proof.
  induction members as [|[key v] rest IH]; intros title e; cbn [decodeMembers]; [reflexivity|].
  destruct (isTitleField key); [destruct v|]; apply IH.
Qed.

(** With [DisallowUnknownFields] a member that is not the field [title]
    makes the decoding fail. *)
Lemma decodeMembers_unknown (members : list (string * json)) (key : string) (v : json) :
  In (key, v) members -> isTitleField key = false ->
  forall title saved, snd (decodeMembers members title saved) <> None.
Proof.
  intros Hin Hkey.
  induction members as [|[k w] rest IH]; [destruct Hin|].
  intros title saved. cbn [decodeMembers].
  destruct Hin as [[= -> ->]|Hin].
  - rewrite Hkey. destruct saved; cbn [saveError]; rewrite decodeMembers_saved; discriminate.
  - destruct (isTitleField k); [destruct w|]; apply IH; assumption.
Qed.






(** The member [TITLE] is taken for the field [title]. *)
Example post_upper_created :
  let res := movies_handler post_upper db_empty healthy in
  Code (resp res) = Some 201
  /\ Written (resp res) = [JObject [("id", JNumber "1"); ("title", JString "Dune")]].
Proof. vm_compute. auto. Qed.

(** The two bodies of the specification's examples. *)
Example post_blank_title :
  Code (resp (movies_handler (post_movie "  ") db_empty healthy)) = Some StatusBadRequest.
Proof. reflexivity. Qed.

Example post_unknown_field :
  Code (resp (movies_handler post_extra db_empty healthy)) = Some StatusBadRequest.
Proof. reflexivity. Qed.

Example post_created :
  let res := movies_handler (post_movie "Dune") db_empty healthy in
  Code (resp res) = Some StatusCreated
  /\ Written (resp res) = [JObject [("id", JNumber "1"); ("title", JString "Dune")]]
  /\ movies (db_after res) !! 1 = Some "Dune".
Proof. vm_compute. auto. Qed.



Example patch_not_allowed :
  let patch path := {| Method := "PATCH"; URL_Path := path; Body := None |} in
  serve (patch "/movies") db_empty healthy
  = Some (finish (bare StatusMethodNotAllowed) db_empty [])
  /\ serve (patch "/movies/1") db_empty healthy
     = Some (finish (bare StatusMethodNotAllowed) db_empty [])
  /\ serve (patch "/movies/abc") db_empty healthy = Some (invalid_id_result db_empty)
  /\ serve (patch "/other") db_empty healthy = None.
Proof. repeat split. Qed.

(** Paths that the mux answers itself, and paths that reach the handler. *)
Example paths_cleaned_by_the_mux :
  let get path := {| Method := MethodGet; URL_Path := path; Body := None |} in
  serve (get "/movies//1") db_dune healthy = None
  /\ serve (get "/movies/./1") db_dune healthy = None
  /\ serve (get "/movies/../health") db_dune healthy = None
  /\ serve (get "/movies/1/") db_dune healthy = Some (invalid_id_result db_dune)
  /\ serve (get "/movies/") db_dune healthy = Some (invalid_id_result db_dune)
  /\ serve (get "/movies/...") db_dune healthy = Some (invalid_id_result db_dune).
Proof. repeat split. Qed.

(** C7 fails as stated: the 405 to a PATCH on [/movies] is written by
    [w.WriteHeader] alone, and the header map is empty. *)
Lemma C7_counterexample : ~ C7_as_stated.
Proof.
  intros H.
  pose (r := {| Method := "PATCH"; URL_Path := "/movies"; Body := None |}).
  specialize (H r db_empty healthy (movies_handler r db_empty healthy) eq_refl).
  vm_compute in H. discriminate.
Qed.

(** C7, amended: a handler answers either through [writeJSON], with one of
    the codes 200, 201, 400, 404, 500, a JSON body and the header
    [Content-Type: application/json]; or by a bare [w.WriteHeader], with the
    code 405 or 204, an empty body and no [Content-Type] set. *)
Theorem C7_content_type (p : Pattern) (r : Request) (db : DB) (drv : Driver) :
  let w := resp (handler_of p r db drv) in
  (exists code v,
      w = writeJSON newResponseWriter code v
      /\ In code [StatusOK; StatusCreated; StatusBadRequest; StatusNotFound;
                  StatusInternalServerError]
      /\ Header w !! "Content-Type" = Some "application/json")
  \/ (exists code,
        w = bare code
        /\ (code = StatusMethodNotAllowed \/ code = StatusNoContent)
        /\ Header w !! "Content-Type" = None
        /\ Written w = []).
Proof.
  assert (J : forall code v,
            In code [StatusOK; StatusCreated; StatusBadRequest; StatusNotFound;
                     StatusInternalServerError] ->
            let w := writeJSON newResponseWriter code v in
            (exists code v,
                w = writeJSON newResponseWriter code v
                /\ In code [StatusOK; StatusCreated; StatusBadRequest; StatusNotFound;
                            StatusInternalServerError]
                /\ Header w !! "Content-Type" = Some "application/json")
            \/ (exists code,
                  w = bare code
                  /\ (code = StatusMethodNotAllowed \/ code = StatusNoContent)
                  /\ Header w !! "Content-Type" = None
                  /\ Written w = [])).
  { intros code v Hin. left. exists code, v.
    split; [reflexivity | split; [exact Hin | apply Header_writeJSON]]. }
  assert (B : forall code,
            code = StatusMethodNotAllowed \/ code = StatusNoContent ->
            let w := bare code in
            (exists code v,
                w = writeJSON newResponseWriter code v
                /\ In code [StatusOK; StatusCreated; StatusBadRequest; StatusNotFound;
                            StatusInternalServerError]
                /\ Header w !! "Content-Type" = Some "application/json")
            \/ (exists code,
                  w = bare code
                  /\ (code = StatusMethodNotAllowed \/ code = StatusNoContent)
                  /\ Header w !! "Content-Type" = None
                  /\ Written w = [])).
  { intros code Hc. right. exists code.
    split; [reflexivity | split; [exact Hc | split; reflexivity]]. }
  cbv zeta in J, B |- *. destruct p; cbn [handler_of].
  - unfold health_handler. cbn [resp finish]. classify J B.
  - unfold movies_handler. handler_cases; cbn [resp finish]; classify J B.
  - destruct (path_id r) as [id|] eqn:Hid.
    + rewrite (movie_handler_valid r db drv id Hid). cbv zeta.
      unfold QueryRow_select, Exec_update, Exec_delete, Postgres.update, Postgres.delete,
        Postgres.select_by_id.
      handler_cases; cbn [resp finish]; classify J B.
    + rewrite (movie_handler_invalid r db drv Hid).
      unfold invalid_id_result. cbn [resp finish]. classify J B.
Qed.

(** ** The readiness gate *)

Section Readiness.

Variable ping : nat -> bool.

Lemma waitForDB_waiting (n : nat) :
  (forall j, (j < n)%nat -> ping j = false) -> waitForDB ping n = waiting n.
Proof.
  induction n as [|n IH]; intros Hfail; [reflexivity|].
  cbn [waitForDB]. rewrite IH by (intros j Hj; apply Hfail; lia).
  unfold wait_step, waiting. cbn [returned probes slept logged].
  rewrite (Hfail n) by lia. f_equal.
  symmetry. apply (repeat_cons n waiting_line).
Qed.

Lemma waitForDB_ready (i : nat) :
  ping i = true -> (forall j, (j < i)%nat -> ping j = false) ->
  forall n, (i < n)%nat -> waitForDB ping n = ready i.
Proof.
  intros Hi Hfail n Hn.
  induction n as [|n IH]; [lia|].
  cbn [waitForDB].
  destruct (Nat.eq_dec n i) as [->|Hne].
  - rewrite (waitForDB_waiting i Hfail).
    unfold wait_step, waiting. cbn [returned probes slept logged].
    rewrite Hi. reflexivity.
  - rewrite IH by lia. reflexivity.
Qed.

Lemma returned_probe (n : nat) :
  returned (waitForDB ping n) = true -> exists i, ping i = true.
Proof.
  induction n as [|n IH]; [discriminate|].
  cbn [waitForDB]. unfold wait_step.
  destruct (returned (waitForDB ping n)) eqn:Hr; [intros _; apply IH; reflexivity|].
  destruct (ping (probes (waitForDB ping n))) eqn:Hp; [eauto | discriminate].
Qed.

(** The first probe that succeeds. *)
Lemma first_success (i : nat) :
  ping i = true ->
  exists k, (k <= i)%nat /\ ping k = true /\ forall j, (j < k)%nat -> ping j = false.
Proof.
  induction i as [i IH] using (well_founded_induction lt_wf). intros Hi.
  destruct (forallb (fun j => negb (ping j)) (seq 0 i)) eqn:Hall.
  - exists i. split; [lia | split; [assumption|]].
    intros j Hj. rewrite forallb_forall in Hall.
    specialize (Hall j). rewrite in_seq in Hall.
    apply negb_true_iff, Hall. lia.
  - assert (Hex : exists j, (j < i)%nat /\ ping j = true).
    { clear IH Hi. induction i as [|i IHi]; [discriminate|].
      rewrite seq_S, forallb_app in Hall. cbn in Hall.
      destruct (forallb (fun j => negb (ping j)) (seq 0 i)).
      - exists i. split; [lia|]. destruct (ping i); [reflexivity | discriminate].
      - destruct (IHi eq_refl) as (j & Hj & Hp). exists j. split; [lia | assumption]. }
    destruct Hex as (j & Hj & Hp).
    destruct (IH j Hj Hp) as (k & Hk & Hpk & Hmin).
    exists k. split; [lia | auto].
Qed.

End Readiness.

(** C8: over any sequence [ping] of probe results, [waitForDB] returns
    exactly when some probe succeeds.  When probe number [i] is the first to
    succeed, the loop is still waiting after [i] turns and has returned
    after every larger number of turns, having issued [i + 1] probes, slept
    [i] seconds and logged [i] lines: one probe a second.  When every probe
    fails, after every number [n] of turns the loop has issued [n] probes,
    slept [n] seconds and not returned: there is no bound on the attempts
    and the interval stays one second. *)
Theorem C8_readiness_gate (ping : nat -> bool) :
  ((exists n, returned (waitForDB ping n) = true) <-> (exists i, ping i = true))
  /\ (forall i,
        ping i = true -> (forall j, (j < i)%nat -> ping j = false) ->
        waitForDB ping i = waiting i
        /\ forall n, (i < n)%nat -> waitForDB ping n = ready i)
  /\ ((forall i, ping i = false) -> forall n, waitForDB ping n = waiting n).
Proof.
  split; [split|split].
  - intros [n Hn]. exact (returned_probe ping n Hn).
  - intros [i Hi].
    destruct (first_success ping i Hi) as (k & _ & Hk & Hmin).
    exists (S k). rewrite (waitForDB_ready ping k Hk Hmin (S k)) by lia. reflexivity.
  - intros i Hi Hmin. split.
    + apply waitForDB_waiting. assumption.
    + apply waitForDB_ready; assumption.
  - intros Hfail n. apply waitForDB_waiting. intros j _. apply Hfail.
Qed.

(** A database that answers the fourth probe. *)
Example waitForDB_fourth_probe :
  let ping i := (3 <=? i)%nat in
  waitForDB ping 3 = waiting 3 /\ waitForDB ping 4 = ready 3 /\ waitForDB ping 9 = ready 3.
Proof. repeat split. Qed.

(** ** More of the item endpoint *)

(** The tests of the handlers, down to the statements of the store. *)
Ltac store_cases :=
  unfold QueryRow_insert, QueryRow_select, Exec_update, Exec_delete,
    Postgres.insert, Postgres.select_by_id, Postgres.update, Postgres.delete;
  repeat match goal with
    | |- context [movies ?d !! ?i] => destruct (movies d !! i) eqn:?
    | |- context [Z.ltb ?a ?b] => destruct (Z.ltb_spec a b)
    end;
  handler_cases.





(** ** Every handler at once *)

(** Opens the handler of each pattern and splits it into its paths. *)
Ltac all_handlers p r db drv :=
  destruct p; cbn [handler_of codes_of];
  [ unfold health_handler
  | unfold movies_handler
  | let Hid := fresh "Hid" in
    destruct (path_id r) as [?id|] eqn:Hid;
    [ rewrite (movie_handler_valid r db drv _ Hid)
    | rewrite (movie_handler_invalid r db drv Hid); unfold invalid_id_result ] ];
  cbv zeta; store_cases; cbn [resp db_after trace finish Error].

(** Chooses the disjunct that holds by computation. *)
Ltac pick := repeat first [left; reflexivity | right; reflexivity | right].

(** X3: a handler sends at most one statement to the database; a GET
    leaves the store as it is and does not read the body; the body is read
    by POST and PUT only; the health handler has no effect at all. *)
Theorem X3_effects_of_a_request (p : Pattern) (r : Request) (db : DB) (drv : Driver) :
  let res := handler_of p r db drv in
  (length (List.filter is_sql (trace res)) <= 1)%nat
  /\ (Method r = MethodGet -> db_after res = db /\ ~ In ReadBody (trace res))
  /\ (In ReadBody (trace res) -> Method r = MethodPost \/ Method r = MethodPut)
  /\ (p = PHealth -> trace res = [] /\ db_after res = db).
Proof.
  cbv zeta. unfold MethodGet, MethodPost, MethodPut, MethodDelete.
  all_handlers p r db drv;
    cbn [List.filter is_sql length In];
    repeat split; try lia; try reflexivity; try congruence; try discriminate;
    intuition (try discriminate; try congruence).
Qed.

(** X4: a response with the code 400, 404 or 500 is written by [writeJSON]
    with a JSON object of the one member [error]; every other response has
    one of the codes 200, 201, 204 and 405. *)
Theorem X4_error_body (p : Pattern) (r : Request) (db : DB) (drv : Driver) :
  let w := resp (handler_of p r db drv) in
  (exists code msg,
      w = writeJSON newResponseWriter code (errorBody msg)
      /\ Written w = [error_json msg]
      /\ In code [StatusBadRequest; StatusNotFound; StatusInternalServerError])
  \/ (exists code,
        Code w = Some code
        /\ In code [StatusOK; StatusCreated; StatusNoContent; StatusMethodNotAllowed]).
Proof.
  cbv zeta.
  all_handlers p r db drv;
    first
      [ left;
        match goal with
        | |- context [writeJSON newResponseWriter ?c (errorBody ?e)] =>
            exists c, (encodedText e);
            split; [apply writeJSON_error_text|];
            split; [apply writeJSON_error_text|];
            cbn [In]; pick
        end
      | right; eexists; split; [reflexivity|]; cbn [In]; pick ].
Qed.

(** X5: the status code of a response is one of those of its endpoint:
    200 on [/health]; 200 or 500 for the listing; 201, 400 or 500 for POST;
    200, 400, 404 or 500 for GET and PUT of an item; 204, 400, 404 or 500
    for DELETE; 405 for any other method, after the 400 of a rejected
    identifier on [/movies/{id}]. *)
Theorem X5_codes_of_an_endpoint (p : Pattern) (r : Request) (db : DB) (drv : Driver) :
  exists code,
    Code (resp (handler_of p r db drv)) = Some code /\ In code (codes_of p (Method r)).
Proof.
  destruct p; cbn [handler_of codes_of];
    [ unfold health_handler
    | unfold movies_handler
    | destruct (path_id r) as [id|] eqn:Hid;
      [ rewrite (movie_handler_valid r db drv _ Hid)
      | rewrite (movie_handler_invalid r db drv Hid); unfold invalid_id_result ] ];
    cbv zeta; store_cases; cbn [resp finish];
    eexists; (split; [reflexivity|]); cbn [In]; pick.
Qed.

(** X6: when the driver fails the statement of a request with the message
    [e], the response has the code 500, the header
    [Content-Type: application/json], and as its body the one object whose
    member [error] is the text of [e] as the encoder writes it: [e] itself
    when it is valid UTF-8, and else [e] with U+FFFD for each byte that is
    not.  This holds for each of the five statements. *)
Theorem X6_driver_error_is_500
    (p : Pattern) (r : Request) (db : DB) (drv : Driver) (e : string) (stmt : Stmt) :
  stmt_err drv = Some e ->
  In (Sql stmt) (trace (handler_of p r db drv)) ->
  let w := resp (handler_of p r db drv) in
  Code w = Some StatusInternalServerError
  /\ Written w = [JObject [("error", JString (encodedText e))]]
  /\ Header w !! "Content-Type" = Some "application/json"
  /\ (encodedText e = e -> Written w = [JObject [("error", JString e)]]).
Proof.
  intros Hdrv Hin w. subst w.
  assert (Hresp : resp (handler_of p r db drv)
                  = writeJSON newResponseWriter StatusInternalServerError (errorBody e)).
  { revert Hdrv Hin.
    all_handlers p r db drv;
      cbn [In]; intros Hdrv Hin;
      try discriminate;
      try (destruct Hin as [Hin|Hin]; [discriminate|]);
      try (destruct Hin as [Hin|Hin]; [discriminate|]);
      try (destruct Hin; fail);
      injection Hdrv as ->; reflexivity. }
  rewrite Hresp.
  destruct (writeJSON_error_text StatusInternalServerError e) as [_ HW].
  split; [apply Code_writeJSON|]. split; [exact HW|].
  split; [apply Header_writeJSON|].
  intros Hvalid. rewrite HW, Hvalid. reflexivity.
Qed.

Lemma X6_witness :
  let r := {| Method := MethodDelete; URL_Path := "/movies/1"; Body := None |} in
  let bad := String "a" (String (byte_of 255) "b") in
  (let w := resp (handler_of PMovie r db_dune (failing "connection refused")) in
   Code w = Some 500
   /\ Written w = [JObject [("error", JString "connection refused")]]
   /\ Header w !! "Content-Type" = Some "application/json")
  /\ (let w := resp (handler_of PMovie r db_dune (failing bad)) in
      Code w = Some 500
      /\ Written w = [JObject [("error", JString (String "a" (replacement ++ "b")))]]).
Proof.
  cbv zeta.
  destruct (X6_driver_error_is_500 PMovie
              {| Method := MethodDelete; URL_Path := "/movies/1"; Body := None |}
              db_dune (failing "connection refused") "connection refused" (DeleteMovie 1)
              eq_refl (or_introl eq_refl))
    as (Hc & Hw & Hh & _).
  destruct (X6_driver_error_is_500 PMovie
              {| Method := MethodDelete; URL_Path := "/movies/1"; Body := None |}
              db_dune (failing (String "a" (String (byte_of 255) "b")))
              (String "a" (String (byte_of 255) "b")) (DeleteMovie 1)
              eq_refl (or_introl eq_refl))
    as (Hc' & Hw' & _).
  split; [repeat split; assumption|]. split; assumption.
Defined.

(** A message with a byte that is no UTF-8 reaches the client with U+FFFD
    in its place. *)
Example driver_error_not_utf8 :
  let e := String "a" (String (byte_of 255) "b") in
  let r := {| Method := MethodGet; URL_Path := "/movies"; Body := None |} in
  Written (resp (movies_handler r db_empty (failing e)))
  = [JObject [("error", JString (String "a" (replacement ++ "b")))]].
Proof. vm_compute. reflexivity. Qed.

(** X7: the rows of the table change only under a POST answered 201, a PUT
    answered 200 or a DELETE answered 204, and the sequence moves only under
    a POST; every other response, the 400, 404, 405 and 500 among them,
    leaves the rows as they were. *)
Theorem X7_rows_change_on_success_only
    (p : Pattern) (r : Request) (db : DB) (drv : Driver) :
  let res := handler_of p r db drv in
  (movies (db_after res) = movies db
   \/ (Method r = MethodPost /\ Code (resp res) = Some StatusCreated)
   \/ (Method r = MethodPut /\ Code (resp res) = Some StatusOK)
   \/ (Method r = MethodDelete /\ Code (resp res) = Some StatusNoContent))
  /\ (movies_id_seq (db_after res) = movies_id_seq db \/ Method r = MethodPost).
Proof.
  cbv zeta.
  all_handlers p r db drv; try (exfalso; lia);
    (split;
     [ first [ left; reflexivity
             | right; left; split; [assumption | reflexivity]
             | right; right; left; split; [assumption | reflexivity]
             | right; right; right; split; [assumption | reflexivity] ]
     | first [ left; reflexivity | right; assumption ] ]).
Qed.

(** ** The listing *)

Section Listing.

Variables (db : DB) (drv : Driver).





#[local] Instance movie_le_total : Total (fun m1 m2 : Movie => ID m1 <= ID m2).
Proof. intros m1 m2. lia. Qed.

#[local] Instance movie_le_trans : Transitive (fun m1 m2 : Movie => ID m1 <= ID m2).
Proof. intros m1 m2 m3. lia. Qed.







End Listing.



Example listing_two_rows :
  Postgres.select_all db_two
  = [{| ID := 3; Title := "Alien" |}; {| ID := 12; Title := "Dune" |}].
Proof. vm_compute. reflexivity. Qed.



(** ** What every sequence of requests keeps *)

Section Runs.

(** A handler never moves the sequence back. *)
Lemma handler_seq_mono (p : Pattern) (r : Request) (db : DB) (drv : Driver) :
  movies_id_seq db <= movies_id_seq (db_after (handler_of p r db drv)).
Proof.
  all_handlers p r db drv; cbn [movies_id_seq]; lia.
Qed.

(** A handler keeps the keys of the table below the sequence. *)
Lemma handler_keys_ok (p : Pattern) (r : Request) (db : DB) (drv : Driver) :
  keys_ok db -> keys_ok (db_after (handler_of p r db drv)).
Proof.
  intros [Hseq Hkeys].
  all_handlers p r db drv; try (split; assumption);
    (split; cbn [movies movies_id_seq]; [lia|]); intros k t Hk.
  all: try (specialize (Hkeys k t Hk); lia).
  all: try (apply lookup_delete_Some in Hk as [_ Hk]; apply (Hkeys k t Hk)).
  all: match type of Hk with
       | <[?i := _]> _ !! _ = _ =>
           destruct (Z.eq_dec i k) as [Heq|Hne];
           [ subst k;
             try lia;
             match goal with
             | H : movies _ !! i = Some _ |- _ => apply Hkeys in H; lia
             end
           | rewrite lookup_insert_ne in Hk by assumption;
             specialize (Hkeys k t Hk); lia ]
       end.
Qed.

(** A handler stores trimmed titles that are not empty, and no other. *)
Lemma handler_titles_ok (p : Pattern) (r : Request) (db : DB) (drv : Driver) :
  titles_ok db -> titles_ok (db_after (handler_of p r db drv)).
Proof.
  intros Hok.
  all_handlers p r db drv; try assumption;
    intros k t Hk; cbn [movies] in Hk.
  all: try (apply (Hok k t Hk)).
  all: try (apply lookup_delete_Some in Hk as [_ Hk]; apply (Hok k t Hk)).
  all: match type of Hk with
       | <[?i := _]> _ !! _ = _ =>
           destruct (Z.eq_dec i k) as [Heq|Hne];
           [ subst k; rewrite lookup_insert_eq in Hk; injection Hk as <-;
             split; [assumption | apply TrimSpace_idempotent]
           | rewrite lookup_insert_ne in Hk by assumption; apply (Hok k t Hk) ]
       end.
Qed.

Lemma step_cases (db : DB) (rq : Request * Driver) :
  step db rq = db \/ exists p, step db rq = db_after (handler_of p (fst rq) db (snd rq)).
Proof.
  unfold step, serve. cbv zeta.
  destruct (if String.eqb (Method (fst rq)) "CONNECT" then _ else _) as [p|]; eauto.
Qed.

Lemma run_seq_mono (rqs : list (Request * Driver)) :
  forall db, movies_id_seq db <= movies_id_seq (run rqs db).
Proof.
  unfold run. induction rqs as [|rq rqs IH]; intros db; cbn [fold_left]; [lia|].
  etransitivity; [|apply IH].
  destruct (step_cases db rq) as [->|[p ->]]; [lia | apply handler_seq_mono].
Qed.

Lemma run_keys_ok (rqs : list (Request * Driver)) :
  forall db, keys_ok db -> keys_ok (run rqs db).
Proof.
  unfold run. induction rqs as [|rq rqs IH]; intros db Hok; cbn [fold_left]; [assumption|].
  apply IH. destruct (step_cases db rq) as [->|[p ->]]; [assumption | apply handler_keys_ok, Hok].
Qed.

Lemma run_titles_ok (rqs : list (Request * Driver)) :
  forall db, titles_ok db -> titles_ok (run rqs db).
Proof.
  unfold run. induction rqs as [|rq rqs IH]; intros db Hok; cbn [fold_left]; [assumption|].
  apply IH. destruct (step_cases db rq) as [->|[p ->]]; [assumption | apply handler_titles_ok, Hok].
Qed.


Lemma keys_ok_empty : keys_ok db_empty.
Proof.
  split; [cbn; lia|]. intros id title H. cbn [db_empty movies] in H.
  rewrite lookup_empty in H. discriminate.
Qed.

Lemma titles_ok_empty : titles_ok db_empty.
Proof.
  intros id title H. cbn [db_empty movies] in H. rewrite lookup_empty in H. discriminate.
Qed.

End Runs.

(** X10: along every sequence of requests, served with any behaviour of
    the driver, the keys of the table stay between 1 and the sequence, and
    the sequence never moves back; so a POST with a title that is not
    blank, executed while the sequence is within [int4], is never refused
    for a duplicate key: it is answered 201. *)
Theorem X10_keys_below_the_sequence
    (db : DB) (rqs : list (Request * Driver)) (t : string) (drv : Driver) :
  keys_ok db ->
  let db' := run rqs db in
  keys_ok db'
  /\ movies_id_seq db <= movies_id_seq db'
  /\ (TrimSpace t <> "" -> stmt_err drv = None ->
      movies_id_seq db' <= Postgres.int4_max ->
      Code (resp (movies_handler (post_movie t) db' drv)) = Some StatusCreated).
Proof.
  intros Hok db'. subst db'.
  pose proof (run_keys_ok rqs db Hok) as Hok'.
  split; [exact Hok'|]. split; [apply run_seq_mono|].
  intros Ht Hdrv Hmax.
  apply post_movie_created; try assumption.
  destruct Hok' as [_ Hkeys].
  destruct (movies (run rqs db) !! movies_id_seq (run rqs db)) as [old|] eqn:Hrow; [|reflexivity].
  apply Hkeys in Hrow. lia.
Qed.

Lemma X10_witness :
  let db' := run session db_empty in
  keys_ok db'
  /\ movies_id_seq db_empty <= movies_id_seq db'
  /\ (TrimSpace "Heat" <> "" -> stmt_err healthy = None ->
      movies_id_seq db' <= Postgres.int4_max ->
      Code (resp (movies_handler (post_movie "Heat") db' healthy)) = Some StatusCreated).
Proof.
  apply (X10_keys_below_the_sequence db_empty session "Heat" healthy).
  exact keys_ok_empty.
Defined.



(** X12: along every sequence of requests every title of the table is
    trimmed and not empty, when those of the table at the start are: the
    handlers store a title only after trimming it and finding it not
    empty. *)
Theorem X12_titles_trimmed_and_not_empty (db : DB) (rqs : list (Request * Driver)) :
  titles_ok db ->
  forall id title,
    movies (run rqs db) !! id = Some title -> title <> "" /\ TrimSpace title = title.
Proof. intros Hok. exact (run_titles_ok rqs db Hok). Qed.

Lemma X12_witness : "Alien 3" <> "" /\ TrimSpace "Alien 3" = "Alien 3".
Proof.
  apply (X12_titles_trimmed_and_not_empty db_empty session titles_ok_empty 2 "Alien 3").
  vm_compute. reflexivity.
Defined.

Example session_result :
  map_to_list (movies (run session db_empty)) = [(2, "Alien 3")]
  /\ movies_id_seq (run session db_empty) = 3.
Proof. vm_compute. auto. Qed.

(** ** The identifiers that the item endpoint accepts *)

Section Accepted_identifiers.

(** The loop of [ParseUint] ends without error on digits only. *)
Lemma ParseUint_loop_ok_digits (s : string) :
  forall n v, ParseUint_loop s n = (v, None) -> all_digits s = true.
Proof.
  induction s as [|c s IH]; intros n v; [reflexivity|].
  cbn [ParseUint_loop all_digits]. cbv zeta. fold (is_digit c).
  destruct (is_digit c) eqn:Hc.
  - destruct (base <=? byte_val c - 48); [discriminate|].
    destruct (maxUint64 / 10 + 1 <=? n); [discriminate|].
    destruct (_ || _); [discriminate|].
    intros H. apply IH in H. rewrite H. reflexivity.
  - destruct ((97 <=? lower (byte_val c)) && (lower (byte_val c) <=? 122)) eqn:Hl;
      [|discriminate].
    apply andb_prop in Hl as [Hl _]. apply Z.leb_le in Hl.
    destruct (Z.leb_spec base (lower (byte_val c) - 97 + 10)) as [_|Hlt];
      [discriminate | unfold base in Hlt; lia].
Qed.

(** A range error of the loop comes with the largest [uint64]. *)
Lemma ParseUint_loop_range (s : string) :
  forall n v, ParseUint_loop s n = (v, Some ErrRange) -> v = maxUint64.
Proof.
  induction s as [|c s IH]; intros n v; [discriminate|].
  cbn [ParseUint_loop]. cbv zeta.
  destruct (if (48 <=? byte_val c) && (byte_val c <=? 57) then _ else _) as [d|];
    [|discriminate].
  destruct (base <=? d); [discriminate|].
  destruct (maxUint64 / 10 + 1 <=? n); [intros [= <-]; reflexivity|].
  destruct (_ || _); [intros [= <-]; reflexivity|].
  apply IH.
Qed.

(** What [ParseInt] reads without error as a positive number is a string
    of digits, with or without [+] in front. *)
Lemma ParseInt_positive_digits (s : string) (id : Z) :
  ParseInt s = (id, None) -> 0 < id ->
  exists digits,
    (s = digits \/ s = String "+" digits)
    /\ digits <> "" /\ all_digits digits = true.
Proof.
  destruct s as [|c0 rest]; [discriminate|].
  unfold ParseInt.
  set (s1 := if Ascii.eqb c0 "+" then rest
             else if Ascii.eqb c0 "-" then rest else String c0 rest).
  destruct (ParseUint s1) as [un err] eqn:HU.
  assert (Hshape : err = None -> s1 <> "" /\ all_digits s1 = true).
  { intros ->. unfold ParseUint in HU. destruct s1 as [|c s1']; [discriminate|].
    split; [discriminate|]. exact (ParseUint_loop_ok_digits _ _ _ HU). }
  destruct err as [[|]|].
  - discriminate.
  - assert (un = maxUint64).
    { unfold ParseUint in HU. destruct s1; [discriminate|].
      exact (ParseUint_loop_range _ _ _ HU). }
    subst un. destruct (Ascii.eqb c0 "-"); discriminate.
  - destruct (Hshape eq_refl) as [Hne Hd].
    pose proof (ParseUint_digits s1 Hd Hne) as HU'. rewrite HU in HU'.
    pose proof (dec_value_nonneg s1 Hd) as Hpos.
    assert (Hun : 0 <= un).
    { destruct (dec_value s1 <? 2 ^ 64); injection HU' as ->; [lia | discriminate]. }
    change (2 ^ (bitSize - 1)) with (2 ^ 63).
    destruct (Ascii.eqb_spec c0 "+") as [->|Hplus].
    + intros _ _. exists rest. subst s1. auto.
    + destruct (Ascii.eqb_spec c0 "-") as [->|Hminus].
      * cbn [negb andb].
        destruct (Z.ltb_spec (2 ^ 63) un); [discriminate|].
        unfold int64_neg, int64_of_uint64. intros [= <-]. intros Hid. exfalso.
        destruct (Z.ltb_spec un (2 ^ 63));
          [destruct (Z.eqb_spec un (- 2 ^ 63)); lia|].
        destruct (Z.eqb_spec (un - 2 ^ 64) (- 2 ^ 63)); lia.
      * intros _ _. exists (String c0 rest). subst s1. auto.
Qed.

End Accepted_identifiers.

(** The segments that [path_id] accepts. *)
Lemma path_id_accepted (r : Request) (id : Z) :
  path_id r = Some id <-> accepted_segment (TrimPrefix (URL_Path r) "/movies/") id.
Proof.
  unfold accepted_segment. split.
  - intros Hid. apply path_id_Some in Hid as [HP Hpos].
    destruct (ParseInt_positive_digits _ _ HP Hpos) as (digits & Hseg & Hne & Hd).
    exists digits. split; [exact Hseg|]. split; [exact Hne|]. split; [exact Hd|].
    assert (HP' : ParseInt digits = (id, None)).
    { destruct Hseg as [Hseg|Hseg]; rewrite Hseg in HP; [exact HP|].
      rewrite ParseInt_plus in HP by assumption. exact HP. }
    rewrite (ParseInt_digits digits Hd Hne) in HP'.
    destruct (Z.ltb_spec (dec_value digits) (2 ^ 63)); [|discriminate].
    injection HP' as <-. lia.
  - intros (digits & Hseg & Hne & Hd & Hval & Hrange).
    assert (HP : ParseInt (TrimPrefix (URL_Path r) "/movies/") = (id, None)).
    { destruct Hseg as [->| ->]; rewrite ?ParseInt_plus by assumption;
        rewrite (ParseInt_digits digits Hd Hne), Hval;
        (destruct (Z.ltb_spec id (2 ^ 63)); [reflexivity | lia]). }
    unfold path_id. rewrite HP.
    destruct (Z.ltb_spec 0 id); [reflexivity | lia].
Qed.

(** X13: the handler of [/movies/{id}] accepts a segment exactly when it
    is a string of decimal digits, not empty, with or without a [+] in
    front, whose value is at least 1 and below 2^63; the identifier is that
    value, so leading zeros and the sign do not change the row addressed.
    Every other segment (empty, with a [-], a space, a letter or a further
    path segment), and no accepted one, is answered 400 with
    [invalid id], whatever the method, with nothing read from the body or
    sent to the database.  On an accepted segment a GET looks the value up
    and is answered 200 with the row, or 404 when the table has no such
    row. *)
Theorem X13_accepted_identifiers (r : Request) (db : DB) (drv : Driver) :
  let seg := TrimPrefix (URL_Path r) "/movies/" in
  let res := movie_handler r db drv in
  (forall id, path_id r = Some id <-> accepted_segment seg id)
  /\ ((forall id, ~ accepted_segment seg id)
      <-> (Code (resp res) = Some StatusBadRequest
           /\ Written (resp res) = [JObject [("error", JString "invalid id")]]))
  /\ ((forall id, ~ accepted_segment seg id) -> trace res = [] /\ db_after res = db)
  /\ (forall id, accepted_segment seg id -> Method r = MethodGet ->
      trace res = [Sql (SelectMovie id)]
      /\ (stmt_err drv = None -> forall title, movies db !! id = Some title ->
          Code (resp res) = Some StatusOK
          /\ Written (resp res)
             = [JObject [("id", JNumber (FormatInt id));
                         ("title", JString (encodedText title))]])
      /\ (stmt_err drv = None -> movies db !! id = None ->
          Code (resp res) = Some StatusNotFound
          /\ Written (resp res) = [JObject [("error", JString "not found")]])).
Proof.
  cbv zeta.
  assert (Hnone : path_id r = None
                  <-> forall id, ~ accepted_segment (TrimPrefix (URL_Path r) "/movies/") id).
  { split.
    - intros HN id Hacc. apply path_id_accepted in Hacc. congruence.
    - intros Hno. destruct (path_id r) as [id|] eqn:Hid; [|reflexivity].
      exfalso. apply (Hno id), path_id_accepted, Hid. }
  split; [apply path_id_accepted|]. split; [|split].
  - rewrite <- Hnone. split.
    + intros Hid. rewrite (movie_handler_invalid r db drv Hid). split; reflexivity.
    + intros [Hc Hw]. destruct (path_id r) as [id|] eqn:Hid; [exfalso|reflexivity].
      revert Hc Hw. rewrite (movie_handler_valid r db drv id Hid). cbv zeta.
      handler_cases; cbn [resp finish];
        rewrite ?Code_writeJSON, ?Written_writeJSON; intros Hc Hw;
        first [discriminate Hc | vm_compute in Hw; discriminate Hw].
  - intros Hno. apply Hnone in Hno. rewrite (movie_handler_invalid r db drv Hno).
    split; reflexivity.
  - intros id Hacc HM. apply path_id_accepted in Hacc.
    rewrite (movie_handler_valid r db drv id Hacc). cbv zeta. rewrite HM.
    change (String.eqb MethodGet MethodGet) with true. cbv iota.
    unfold QueryRow_select, Postgres.select_by_id.
    split; [|split].
    + destruct (stmt_err drv); [reflexivity|].
      destruct (movies db !! id); reflexivity.
    + intros -> title ->. split; reflexivity.
    + intros -> ->. split; reflexivity.
Qed.

Example identifiers_on_the_handler :
  let get seg := {| Method := MethodGet; URL_Path := "/movies/" ++ seg; Body := None |} in
  let answer seg :=
    let w := resp (movie_handler (get seg) db_dune healthy) in (Code w, Written w) in
  answer "001" = (Some 200, [JObject [("id", JNumber "1"); ("title", JString "Dune")]])
  /\ answer "+1" = (Some 200, [JObject [("id", JNumber "1"); ("title", JString "Dune")]])
  /\ answer "2" = (Some 404, [JObject [("error", JString "not found")]])
  /\ answer "-1" = (Some 400, [JObject [("error", JString "invalid id")]])
  /\ answer "1/" = (Some 400, [JObject [("error", JString "invalid id")]])
  /\ answer "" = (Some 400, [JObject [("error", JString "invalid id")]]).
Proof. vm_compute. repeat split. Qed.

Example identifiers_accepted_and_rejected :
  let id seg := path_id {| Method := MethodGet; URL_Path := "/movies/" ++ seg; Body := None |} in
  id "007" = Some 7 /\ id "+7" = Some 7 /\ id "7" = Some 7
  /\ id "" = None /\ id "0" = None /\ id "-7" = None /\ id " 7" = None
  /\ id "7/" = None /\ id "7/2" = None /\ id "0x7" = None /\ id "++7" = None.
Proof. vm_compute. repeat split. Qed.

(** ** The bodies that [readJSON] accepts *)


Example bodies_accepted_and_rejected :
  body_ok (Some JNull) = true
  /\ body_ok (Some (JObject [])) = true
  /\ body_ok (Some (JObject [("TITLE", JString "a"); ("title", JNull)])) = true
  /\ body_ok None = false
  /\ body_ok (Some (JString "Dune")) = false
  /\ body_ok (Some (JArray [JObject [("title", JString "a")]])) = false
  /\ body_ok (Some (JObject [("title", JNumber "5")])) = false
  /\ body_ok (Some (JObject [("title", JString "a"); ("id", JNumber "1")])) = false.
Proof. repeat split. Qed.

(** ** Start-up *)

(** X15: [openDB] ends the process on the first of [DB_HOST], [DB_PORT],
    [DB_USER], [DB_PASSWORD], [DB_NAME], in this order, that is not set or
    is white space only, with a message that names it.  When none is, it
    ends the process on the error of [sql.Open], if any, and else returns
    the handle: the data source name made of the five trimmed values and
    [sslmode=disable], at most 10 open and 10 idle connections, a lifetime
    of 30 minutes. *)
Theorem X15_openDB (env : gmap string string) (open_err : option string) :
  match List.find (blank env) required_env with
  | Some key => openDB env open_err = Fatal ("missing env var: " ++ key)
  | None =>
      match open_err with
      | Some e => openDB env open_err = Fatal e
      | None =>
          let v key := TrimSpace (Getenv env key) in
          openDB env open_err
          = Ok {| dsn := "host=" ++ v "DB_HOST" ++ " port=" ++ v "DB_PORT"
                         ++ " user=" ++ v "DB_USER" ++ " password=" ++ v "DB_PASSWORD"
                         ++ " dbname=" ++ v "DB_NAME" ++ " sslmode=disable";
                  MaxOpenConns := 10; MaxIdleConns := 10; ConnMaxLifetime := 30 |}
          /\ Forall (fun key => v key <> "") required_env
      end
  end.
Proof.
  unfold openDB, mustEnv, required_env, blank. cbn [List.find].
  repeat match goal with
    | |- context [String.eqb (TrimSpace (Getenv env ?k)) ""] =>
        destruct (String.eqb_spec (TrimSpace (Getenv env k)) "")
    end;
    cbn [mbind Exit_bind]; try reflexivity.
  destruct open_err; [reflexivity|].
  cbv zeta. split; [reflexivity|]. repeat constructor; assumption.
Qed.

Example openDB_examples :
  let full : gmap string string :=
    list_to_map [("DB_HOST", " db "); ("DB_PORT", "5432"); ("DB_USER", "app");
                 ("DB_PASSWORD", "secret"); ("DB_NAME", "movies")] in
  openDB full None
  = Ok {| dsn := "host=db port=5432 user=app password=secret dbname=movies sslmode=disable";
          MaxOpenConns := 10; MaxIdleConns := 10; ConnMaxLifetime := 30 |}
  /\ openDB (base.delete "DB_USER" (<["DB_NAME" := "  "]> full)) None
     = Fatal "missing env var: DB_USER".
Proof. vm_compute. auto. Qed.

(** X16: [main] reads the configuration before the first probe: when
    [openDB] ends the process, [main] has exited with its message whatever
    the probes would answer.  With the handle opened, [main] comes to
    listen exactly when some probe succeeds, and not before; it then
    listens on the port of [PORT] as it is written, not trimmed, or on 8080
    when [PORT] is not set or blank, with a header timeout of 5 seconds,
    after logging one line for each failed probe and the two lines of the
    connection. *)
Theorem X16_main_starts_after_the_database
    (env : gmap string string) (open_err : option string) (ping : nat -> bool) :
  (forall msg, openDB env open_err = Fatal msg ->
     forall n, main env open_err ping n = Exited msg)
  /\ (forall db, openDB env open_err = Ok db ->
       ((exists n srv log, main env open_err ping n = Listening srv db log)
        <-> exists i, ping i = true)
       /\ forall i, ping i = true -> (forall j, (j < i)%nat -> ping j = false) ->
            main env open_err ping i = WaitingForDB (waiting i)
            /\ forall n, (i < n)%nat ->
                 main env open_err ping n
                 = Listening
                     {| Addr := if blank env "PORT" then ":8080"
                                else ":" ++ Getenv env "PORT";
                        ReadHeaderTimeout := 5 |}
                     db
                     (repeat waiting_line i
                      ++ ["Database connected"; "Starting the Server..."])%list).
Proof.
  split.
  - intros msg Hopen n. unfold main. rewrite Hopen. reflexivity.
  - intros db Hopen. split; [split|].
    + intros (n & srv & log & Hmain). unfold main in Hmain. rewrite Hopen in Hmain.
      destruct (returned (waitForDB ping n)) eqn:Hret; [|discriminate].
      exact (returned_probe ping n Hret).
    + intros [i Hi].
      destruct (first_success ping i Hi) as (k & _ & Hk & Hmin).
      exists (S k). unfold main. rewrite Hopen.
      rewrite (waitForDB_ready ping k Hk Hmin (S k)) by lia.
      cbn [returned ready]. eauto.
    + intros i Hi Hmin. unfold main. rewrite Hopen. split.
      * rewrite (waitForDB_waiting ping i Hmin). reflexivity.
      * intros n Hn. rewrite (waitForDB_ready ping i Hi Hmin n Hn).
        cbn [returned ready logged]. unfold blank.
        destruct (String.eqb (TrimSpace (Getenv env "PORT")) ""); reflexivity.
Qed.

Example main_port_not_trimmed :
  let env : gmap string string :=
    list_to_map [("DB_HOST", "db"); ("DB_PORT", "5432"); ("DB_USER", "app");
                 ("DB_PASSWORD", "secret"); ("DB_NAME", "movies"); ("PORT", " 9090")] in
  match main env None (fun _ => true) 1 with
  | Listening srv _ log =>
      Addr srv = ": 9090" /\ log = ["Database connected"; "Starting the Server..."]
  | _ => False
  end.
Proof. vm_compute. auto. Qed.
